(** * Node server of the Cinder CSI plugin (pkg/csi/cinder/nodeserver.go)

    A shallow embedding of the node-local half of the plugin: the lookup of
    an attached block device from a volume id, the publish / unpublish
    handlers and the node identity queries, together with the properties of
    the design document that concern them.

    Go strings are byte sequences and are modelled by [string]; a Go
    [error] value that may be [nil] is an [option error]; a Go result
    [(T, error)] is the pair [T * option error]; a run that may panic
    lives in [exec]. *)

From Stdlib Require Import String Ascii List Bool Arith ZArith Lia.
From Stdlib Require Import Sorting.Permutation Sorting.Sorted.
Import ListNotations.
Open Scope string_scope.

(* ================================================================= *)
(** ** The parts of Go and of its libraries that the node server uses *)
(* ================================================================= *)

Module Go.

(** A computation either delivers a value or panics. *)
Inductive exec (A : Type) : Type :=
| Done (a : A)
| Panic.
Arguments Done {A} a.
Arguments Panic {A}.

Definition exec_bind {A B} (x : exec A) (k : A -> exec B) : exec B :=
  match x with
  | Done a => k a
  | Panic => Panic
  end.

(** [s[:n]]: the first [n] bytes; slicing past the end panics. *)
Definition slice_to (s : string) (n : nat) : exec string :=
  if (n <=? String.length s)%nat then Done (substring 0 n s) else Panic.

(** [fmt.Sprintf] with a format that is a literal followed by one [%s]. *)
Definition Sprintf_s (literal arg : string) : string := literal ++ arg.

(** *** strings.Replace *)

Definition may_replace (limit : option nat) : bool :=
  match limit with
  | Some O => false
  | _ => true
  end.

Definition used_one (limit : option nat) : option nat :=
  match limit with
  | Some k => Some (Nat.pred k)
  | None => None
  end.

(** Left-to-right scan replacing non-overlapping occurrences of [old];
    [skip] counts the bytes of a matched occurrence still to be dropped,
    [limit] the replacements still allowed ([None]: no limit). *)
Fixpoint replace_scan (old new : string) (limit : option nat) (skip : nat)
         (s : string) : string :=
  match s with
  | EmptyString => EmptyString
  | String c s' =>
      match skip with
      | S k => replace_scan old new limit k s'
      | O =>
          if may_replace limit && prefix old s
          then new ++ replace_scan old new (used_one limit)
                                   (Nat.pred (String.length old)) s'
          else String c (replace_scan old new limit 0 s')
      end
  end.

(** [strings.Replace(s, old, new, n)] for a non-empty [old]: the first [n]
    non-overlapping occurrences are replaced, all of them when [n < 0].
    (With an empty [old] Go inserts at rune boundaries; the node server
    never does that and the model leaves [s] as it is.) *)
Definition strings_Replace (s old new : string) (n : Z) : string :=
  if String.eqb old new || (n =? 0)%Z then s
  else if String.eqb old "" then s
  else replace_scan old new (if (n <? 0)%Z then None else Some (Z.to_nat n)) 0 s.

(** *** path.Clean and path.Join *)

Definition slash : ascii := "/"%char.
Definition dot : ascii := "."%char.

(** The [..] step of Clean: drop the last byte of the output, then keep
    dropping while more than [dotdot] bytes remain and the byte just dropped
    is not a slash.  The output buffer is kept last byte first. *)
Fixpoint backtrack (dotdot : nat) (out : list ascii) : list ascii :=
  match out with
  | [] => []
  | c :: out' =>
      if (dotdot <? List.length out')%nat && negb (Ascii.eqb c slash)
      then backtrack dotdot out'
      else out'
  end.

Definition at_element_end (rest : list ascii) : bool :=
  match rest with
  | [] => true
  | c :: _ => Ascii.eqb c slash
  end.

(** The main loop of Clean over the unread bytes [rest].  [copying] is set
    while the loop is inside the inner [for] that copies a real path
    element. *)
Fixpoint clean_loop (rooted copying : bool) (dotdot : nat)
         (out rest : list ascii) : list ascii :=
  match rest with
  | [] => out
  | c :: t =>
      if copying then
        if Ascii.eqb c slash
        then clean_loop rooted false dotdot out t
        else clean_loop rooted true dotdot (c :: out) t
      else if Ascii.eqb c slash then
        (* empty path element *)
        clean_loop rooted false dotdot out t
      else if Ascii.eqb c dot && at_element_end t then
        (* . element *)
        clean_loop rooted false dotdot out t
      else
        let element :=
          (* real path element: add a slash if needed, then copy *)
          let out1 :=
            if (rooted && negb (List.length out =? 1)%nat)
               || (negb rooted && negb (List.length out =? 0)%nat)
            then slash :: out else out in
          clean_loop rooted true dotdot (c :: out1) t in
        match t with
        | c2 :: t' =>
            if Ascii.eqb c dot && Ascii.eqb c2 dot && at_element_end t' then
              (* .. element: remove to last slash *)
              if (dotdot <? List.length out)%nat then
                clean_loop rooted false dotdot (backtrack dotdot out) t'
              else if negb rooted then
                let out1 :=
                  if (0 <? List.length out)%nat then slash :: out else out in
                let out2 := dot :: dot :: out1 in
                clean_loop rooted false (List.length out2) out2 t'
              else
                clean_loop rooted false dotdot out t'
            else element
        | [] => element
        end
  end.

Definition path_Clean (p : string) : string :=
  match list_ascii_of_string p with
  | [] => "."
  | c :: t =>
      let out :=
        if Ascii.eqb c slash
        then clean_loop true false 1 [slash] t
        else clean_loop false false 0 [] (c :: t) in
      match out with
      | [] => "."
      | _ => string_of_list_ascii (rev out)
      end
  end.

(** The buffer that Join builds before cleaning: the non-empty elements
    with a slash between them. *)
Fixpoint join_buf (buf : string) (elem : list string) : string :=
  match elem with
  | [] => buf
  | e :: rest =>
      if negb (String.length buf =? 0)%nat || negb (String.eqb e "")
      then join_buf ((if negb (String.length buf =? 0)%nat
                      then buf ++ "/" else buf) ++ e) rest
      else join_buf buf rest
  end.

Definition path_Join (elem : list string) : string :=
  if (fold_right (fun e n => String.length e + n) 0 elem =? 0)%nat then ""
  else path_Clean (join_buf "" elem).

(** *** errors, gRPC codes and status *)

Inductive Code : Type :=
| OK | Canceled | Unknown | InvalidArgument | DeadlineExceeded | NotFound
| AlreadyExists | PermissionDenied | ResourceExhausted | FailedPrecondition
| Aborted | OutOfRange | Unimplemented | Internal | Unavailable | DataLoss
| Unauthenticated.

Definition Code_String (c : Code) : string :=
  match c with
  | OK => "OK" | Canceled => "Canceled" | Unknown => "Unknown"
  | InvalidArgument => "InvalidArgument"
  | DeadlineExceeded => "DeadlineExceeded" | NotFound => "NotFound"
  | AlreadyExists => "AlreadyExists"
  | PermissionDenied => "PermissionDenied"
  | ResourceExhausted => "ResourceExhausted"
  | FailedPrecondition => "FailedPrecondition" | Aborted => "Aborted"
  | OutOfRange => "OutOfRange" | Unimplemented => "Unimplemented"
  | Internal => "Internal" | Unavailable => "Unavailable"
  | DataLoss => "DataLoss" | Unauthenticated => "Unauthenticated"
  end.

(** A non-nil error value: one made by [status.Error], which carries a
    code, or any other error, of which only the message matters here. *)
Inductive error : Type :=
| StatusError (c : Code) (msg : string)
| PlainError (msg : string).

(** [err.Error()] *)
Definition Error (e : error) : string :=
  match e with
  | StatusError c msg =>
      "rpc error: code = " ++ Code_String c ++ " desc = " ++ msg
  | PlainError msg => msg
  end.

(** [status.Error(c, msg)]; the code OK gives the nil error. *)
Definition status_Error (c : Code) (msg : string) : option error :=
  match c with
  | OK => None
  | _ => Some (StatusError c msg)
  end.

(** [status.Code(err)] as the caller of a handler sees it. *)
Definition status_Code (err : option error) : Code :=
  match err with
  | None => OK
  | Some (StatusError c _) => c
  | Some (PlainError _) => Unknown
  end.

(** *** ioutil.ReadDir *)

Record FileInfo : Type := mkFileInfo { Name : string }.

(** What a directory holds for a reader: its entries, or the reason it
    cannot be read (missing, not a directory, permission denied, ...). *)
Inductive DirState : Type :=
| DirEntries (entries : list FileInfo)
| DirUnreadable (e : error).

Definition FileSystem : Type := string -> DirState.

Fixpoint insert_by_name (f : FileInfo) (l : list FileInfo) : list FileInfo :=
  match l with
  | [] => [f]
  | g :: l' =>
      if (Name f <=? Name g)%string then f :: l
      else g :: insert_by_name f l'
  end.

Definition sort_by_name (l : list FileInfo) : list FileInfo :=
  fold_right insert_by_name [] l.

(** [ioutil.ReadDir(dirname)]: the entries sorted by file name, or no
    entries and the error. *)
Definition ioutil_ReadDir (fs : FileSystem) (dirname : string)
  : list FileInfo * option error :=
  match fs dirname with
  | DirEntries entries => (sort_by_name entries, None)
  | DirUnreadable e => ([], Some e)
  end.

End Go.

(* ================================================================= *)
(** ** pkg/csi/cinder/nodeserver.go *)
(* ================================================================= *)

Module Cinder.
Import Go.

(** *** Finding the device of a volume *)

Definition by_id_dir : string := "/dev/disk/by-id/".

(** The list of candidate device names built at the head of
    [getDevicePathBySerialID]; both [volumeID[:20]] slices panic on an id
    shorter than 20 bytes. *)
Definition candidateDeviceNodes (volumeID : string) : exec (list string) :=
  exec_bind (slice_to volumeID 20) (fun kvm =>
  exec_bind (slice_to volumeID 20) (fun kvm_scsi =>
  Done [ (* KVM *)
         Sprintf_s "virtio-" kvm;
         (* KVM virtio-scsi *)
         Sprintf_s "scsi-0QEMU_QEMU_HARDDISK_" kvm_scsi;
         (* ESXi *)
         Sprintf_s "wwn-0x" (strings_Replace volumeID "-" "" (-1)) ])).

(** The inner loop, [for _, c := range candidateDeviceNodes], for one
    directory entry [f]: the joined path at the first candidate equal to
    the entry's name. *)
Fixpoint match_candidates (f : FileInfo) (candidates : list string)
  : option string :=
  match candidates with
  | [] => None
  | c :: rest =>
      if String.eqb c (Name f)
      then Some (path_Join [by_id_dir; Name f])
      else match_candidates f rest
  end.

(** The outer loop, [for _, f := range files]. *)
Fixpoint search_files (files : list FileInfo) (candidates : list string)
  : option string :=
  match files with
  | [] => None
  | f :: rest =>
      match match_candidates f candidates with
      | Some p => Some p
      | None => search_files rest candidates
      end
  end.

(** [getDevicePathBySerialID] returns the path of an attached block
    storage volume, specified by its id.  [fs] is the file system the call
    reads [/dev/disk/by-id/] from; the error of the listing is dropped. *)
Definition getDevicePathBySerialID (fs : FileSystem) (volumeID : string)
  : exec (string * option error) :=
  exec_bind (candidateDeviceNodes volumeID) (fun candidates =>
  let (files, _) := ioutil_ReadDir fs by_id_dir in
  match search_files files candidates with
  | Some devicePath => Done (devicePath, None)
  | None => Done ("", status_Error Internal "Failed to find device by volume ID")
  end).

(** *** CSI messages (csi/v0), with the nil-safe getters the handlers use *)

Record VolumeCapability_MountVolume : Type :=
  { fs_type : string; mount_flags : list string }.

Inductive VolumeCapability_AccessType : Type :=
| VolumeCapability_Block
| VolumeCapability_Mount (mount : option VolumeCapability_MountVolume).

Record VolumeCapability : Type :=
  { access_type : option VolumeCapability_AccessType }.

Record NodePublishVolumeRequest : Type :=
  { volume_id : string;
    target_path : string;
    volume_capability : option VolumeCapability;
    readonly : bool }.

Record NodePublishVolumeResponse : Type := mkNodePublishVolumeResponse {}.

Record NodeUnpublishVolumeRequest : Type :=
  { unpublish_volume_id : string; unpublish_target_path : string }.

Record NodeUnpublishVolumeResponse : Type := mkNodeUnpublishVolumeResponse {}.

Record NodeGetIdRequest : Type := mkNodeGetIdRequest {}.
Record NodeGetIdResponse : Type := { NodeId : string }.

Record NodeGetInfoRequest : Type := mkNodeGetInfoRequest {}.
Record NodeGetInfoResponse : Type :=
  { InfoNodeId : string; MaxVolumesPerNode : Z }.

Record NodeStageVolumeRequest : Type :=
  { stage_volume_id : string; staging_target_path : string }.
Record NodeStageVolumeResponse : Type := mkNodeStageVolumeResponse {}.

Record NodeUnstageVolumeRequest : Type :=
  { unstage_volume_id : string; unstage_staging_target_path : string }.
Record NodeUnstageVolumeResponse : Type := mkNodeUnstageVolumeResponse {}.

Inductive NodeServiceCapability_RPC_Type : Type :=
| NodeServiceCapability_RPC_UNKNOWN
| NodeServiceCapability_RPC_STAGE_UNSTAGE_VOLUME.

Record NodeServiceCapability_RPC : Type :=
  { rpc_type : NodeServiceCapability_RPC_Type }.

Inductive NodeServiceCapability_Type : Type :=
| NodeServiceCapability_Rpc (rpc : option NodeServiceCapability_RPC).

Record NodeServiceCapability : Type :=
  { capability_type : option NodeServiceCapability_Type }.

Record NodeGetCapabilitiesRequest : Type := mkNodeGetCapabilitiesRequest {}.
Record NodeGetCapabilitiesResponse : Type :=
  { Capabilities : list NodeServiceCapability }.

Definition GetTargetPath (req : NodePublishVolumeRequest) := target_path req.
Definition GetVolumeId (req : NodePublishVolumeRequest) := volume_id req.
Definition GetReadonly (req : NodePublishVolumeRequest) := readonly req.
Definition GetVolumeCapability (req : NodePublishVolumeRequest) :=
  volume_capability req.

Definition GetMount (c : option VolumeCapability)
  : option VolumeCapability_MountVolume :=
  match c with
  | Some {| access_type := Some (VolumeCapability_Mount m) |} => m
  | _ => None
  end.

Definition GetFsType (m : option VolumeCapability_MountVolume) : string :=
  match m with
  | Some mv => fs_type mv
  | None => ""
  end.

Definition GetMountFlags (m : option VolumeCapability_MountVolume)
  : list string :=
  match m with
  | Some mv => mount_flags mv
  | None => []
  end.

Definition GetUnpublishTargetPath (req : NodeUnpublishVolumeRequest) :=
  unpublish_target_path req.

(** Go's [append] on string slices. *)
Definition append_strings (s : list string) (elems : list string)
  : list string := (s ++ elems)%list.

Section NodeServer.

(** The host the plugin runs on, as far as the mount provider and the
    file system expose it. *)
Variable World : Type.

(** Modelled from the spec: the interface [mount.IMount] of package
    pkg/csi/cinder/mount, whose declaration is not part of nodeserver.go
    (design document, section 6: scanForAttach, isNotMountPointForAttach,
    isNotMountPointForDetach, formatAndMount, unmountPath, getInstanceID).
    Every method may read and change the host. *)
Record IMount : Type :=
  { ScanForAttach : string -> World -> option error * World;
    IsLikelyNotMountPointAttach :
      string -> World -> (bool * option error) * World;
    IsLikelyNotMountPointDetach :
      string -> World -> (bool * option error) * World;
    FormatAndMount :
      string -> string -> string -> list string -> World
      -> option error * World;
    UnmountPath : string -> World -> option error * World;
    GetInstanceID : World -> (string * option error) * World }.

(** What [ioutil.ReadDir] sees on the host. *)
Variable filesystem : World -> FileSystem.

(** Modelled from the spec: [mount.GetMountProvider] of package
    pkg/csi/cinder/mount, not part of nodeserver.go; it hands out the mount
    provider ([inl], with a nil error) or fails with an error ([inr]). *)
Variable GetMountProvider : World -> IMount + error.

(** One call of a provider method, with its arguments and what it
    returned. *)
Inductive Call : Type :=
| CallScanForAttach (devicePath : string) (err : option error)
| CallIsLikelyNotMountPointAttach (targetpath : string)
                                  (r : bool * option error)
| CallIsLikelyNotMountPointDetach (targetpath : string)
                                  (r : bool * option error)
| CallFormatAndMount (source target fstype : string) (options : list string)
                     (err : option error)
| CallUnmountPath (mountPath : string) (err : option error)
| CallGetInstanceID (r : string * option error).

(** A run of a handler threads the host and the provider calls made so
    far, oldest first. *)
Record Run : Type := mkRun { world : World; calls : list Call }.

Definition M (A : Type) : Type := Run -> exec A * Run.

Definition ret {A} (a : A) : M A := fun r => (Done a, r).

Definition bind {A B} (c : M A) (k : A -> M B) : M B :=
  fun r =>
    match c r with
    | (Done a, r') => k a r'
    | (Panic, r') => (Panic, r')
    end.

Local Notation "x <- c ;; k" := (bind c (fun x => k))
  (at level 61, c at next level, right associativity).
Local Notation "' pat <- c ;; k" := (bind c (fun x => let 'pat := x in k))
  (at level 61, pat pattern, c at next level, right associativity).

(** A pure, possibly panicking computation that reads the host. *)
Definition read_host {A} (f : World -> exec A) : M A :=
  fun r => (f (world r), r).

(** A method call on the provider: the method runs on the host and the
    call is recorded. *)
Definition invoke {A} (method : World -> A * World) (record : A -> Call)
  : M A :=
  fun r =>
    let (a, w') := method (world r) in
    (Done a, {| world := w'; calls := (calls r ++ [record a])%list |}).

(** A handler started on a host, with no call made yet. *)
Definition run {A} (c : M A) (w : World) : exec A * Run :=
  c {| world := w; calls := [] |}.

(** Modelled from the spec: [csicommon.DefaultNodeServer] of the external
    package kubernetes-csi/drivers, the generic default responder that the
    node server embeds. *)
Record DefaultNodeServer : Type :=
  { DefaultNodeGetId :
      NodeGetIdRequest -> M (option NodeGetIdResponse * option error);
    DefaultNodeGetInfo :
      NodeGetInfoRequest -> M (option NodeGetInfoResponse * option error) }.

Record nodeServer : Type := { Default : DefaultNodeServer }.

Definition NodePublishVolume (ns : nodeServer)
           (req : NodePublishVolumeRequest)
  : M (option NodePublishVolumeResponse * option error) :=
  let targetPath := GetTargetPath req in
  let fsType := GetFsType (GetMount (GetVolumeCapability req)) in
  let volumeID := GetVolumeId req in
  (* Get device path by ID *)
  '(devicePath, err) <-
    read_host (fun w => getDevicePathBySerialID (filesystem w) volumeID) ;;
  match err with
  | Some _ => ret (None, err)
  | None =>
  (* Get Mount Provider *)
  provider <- read_host (fun w => Done (GetMountProvider w)) ;;
  match provider with
  | inr err => ret (None, Some err)
  | inl m =>
  (* Device Scan *)
  err <- invoke (ScanForAttach m devicePath)
                (CallScanForAttach devicePath) ;;
  match err with
  | Some _ => ret (None, err)
  | None =>
  (* Verify whether mounted *)
  '(notMnt, err) <-
    invoke (IsLikelyNotMountPointAttach m targetPath)
           (CallIsLikelyNotMountPointAttach targetPath) ;;
  match err with
  | Some e => ret (None, status_Error Internal (Error e))
  | None =>
  (* Volume Mount *)
  if notMnt : bool then
    (* Get Options *)
    let options : list string := [] in
    let options :=
      if GetReadonly req
      then append_strings options ["ro"]
      else append_strings options ["rw"] in
    let mountFlags := GetMountFlags (GetMount (GetVolumeCapability req)) in
    let options := append_strings options mountFlags in
    (* Mount *)
    err <- invoke (FormatAndMount m devicePath targetPath fsType options)
                  (CallFormatAndMount devicePath targetPath fsType options) ;;
    match err with
    | Some e => ret (None, status_Error Internal (Error e))
    | None => ret (Some mkNodePublishVolumeResponse, None)
    end
  else ret (Some mkNodePublishVolumeResponse, None)
  end end end end.

Definition NodeUnpublishVolume (ns : nodeServer)
           (req : NodeUnpublishVolumeRequest)
  : M (option NodeUnpublishVolumeResponse * option error) :=
  let targetPath := GetUnpublishTargetPath req in
  (* Get Mount Provider *)
  provider <- read_host (fun w => Done (GetMountProvider w)) ;;
  match provider with
  | inr err => ret (None, Some err)
  | inl m =>
  '(notMnt, err) <-
    invoke (IsLikelyNotMountPointDetach m targetPath)
           (CallIsLikelyNotMountPointDetach targetPath) ;;
  match err with
  | Some e => ret (None, status_Error Internal (Error e))
  | None =>
  if notMnt : bool then
    ret (None, status_Error NotFound "Volume not mounted")
  else
  err <- invoke (UnmountPath m (GetUnpublishTargetPath req))
                (CallUnmountPath (GetUnpublishTargetPath req)) ;;
  match err with
  | Some e => ret (None, status_Error Internal (Error e))
  | None => ret (Some mkNodeUnpublishVolumeResponse, None)
  end end end.

Definition getNodeID : M (string * option error) :=
  (* Get Mount Provider *)
  provider <- read_host (fun w => Done (GetMountProvider w)) ;;
  match provider with
  | inr err => ret ("", Some err)
  | inl m =>
  '(nodeID, err) <- invoke (GetInstanceID m) CallGetInstanceID ;;
  match err with
  | Some _ => ret ("", err)
  | None => ret (nodeID, None)
  end end.

Definition NodeGetId (ns : nodeServer) (req : NodeGetIdRequest)
  : M (option NodeGetIdResponse * option error) :=
  '(nodeID, err) <- getNodeID ;;
  match err with
  | Some _ => ret (None, err)
  | None =>
  if (0 <? String.length nodeID)%nat
  then ret (Some {| NodeId := nodeID |}, None)
  else
    (* Using default function *)
    DefaultNodeGetId (Default ns) req
  end.

Definition NodeGetInfo (ns : nodeServer) (req : NodeGetInfoRequest)
  : M (option NodeGetInfoResponse * option error) :=
  '(nodeID, err) <- getNodeID ;;
  match err with
  | Some _ => ret (None, err)
  | None =>
  if (0 <? String.length nodeID)%nat
  then ret (Some {| InfoNodeId := nodeID; MaxVolumesPerNode := 0 |}, None)
  else
    (* Using default function *)
    DefaultNodeGetInfo (Default ns) req
  end.

Definition NodeUnstageVolume (ns : nodeServer)
           (req : NodeUnstageVolumeRequest)
  : M (option NodeUnstageVolumeResponse * option error) :=
  ret (Some mkNodeUnstageVolumeResponse, None).

Definition NodeStageVolume (ns : nodeServer) (req : NodeStageVolumeRequest)
  : M (option NodeStageVolumeResponse * option error) :=
  ret (Some mkNodeStageVolumeResponse, None).

Definition NodeGetCapabilities (ns : nodeServer)
           (req : NodeGetCapabilitiesRequest)
  : M (option NodeGetCapabilitiesResponse * option error) :=
  ret (Some {| Capabilities :=
                 [ {| capability_type :=
                        Some (NodeServiceCapability_Rpc
                                (Some {| rpc_type :=
                                           NodeServiceCapability_RPC_UNKNOWN
                                      |})) |} ] |},
       None).

(** Selectors on the recorded calls. *)
Definition is_FormatAndMount (c : Call) : bool :=
  match c with CallFormatAndMount _ _ _ _ _ => true | _ => false end.

Definition is_UnmountPath (c : Call) : bool :=
  match c with CallUnmountPath _ _ => true | _ => false end.

End NodeServer.

Arguments ScanForAttach {World} _ _ _.
Arguments IsLikelyNotMountPointAttach {World} _ _ _.
Arguments IsLikelyNotMountPointDetach {World} _ _ _.
Arguments FormatAndMount {World} _ _ _ _ _ _.
Arguments UnmountPath {World} _ _ _.
Arguments GetInstanceID {World} _ _.
Arguments mkRun {World} _ _.
Arguments world {World} _.
Arguments calls {World} _.
Arguments ret {World A} _ _.
Arguments bind {World A B} _ _ _.
Arguments read_host {World A} _ _.
Arguments invoke {World A} _ _ _.
Arguments run {World A} _ _.
Arguments DefaultNodeGetId {World} _ _ _.
Arguments DefaultNodeGetInfo {World} _ _ _.
Arguments Default {World} _.
Arguments NodePublishVolume {World} _ _ _ _ _.
Arguments NodeUnpublishVolume {World} _ _ _ _.
Arguments getNodeID {World} _ _.
Arguments NodeGetId {World} _ _ _ _.
Arguments NodeGetInfo {World} _ _ _ _.
Arguments NodeStageVolume {World} _ _ _.
Arguments NodeUnstageVolume {World} _ _ _.
Arguments NodeGetCapabilities {World} _ _ _.

End Cinder.

(* ================================================================= *)
(** ** Reference definitions in the words of the design document *)
(* ================================================================= *)

Module Design.
Import Go Cinder.

(** "the identifier with all hyphens removed" *)
Fixpoint remove_hyphens (s : string) : string :=
  match s with
  | EmptyString => EmptyString
  | String c s' =>
      if Ascii.eqb c "-"%char then remove_hyphens s'
      else String c (remove_hyphens s')
  end.

(** The three candidate names as section 4.1 lists them. *)
Definition three_candidates (volumeID : string) : list string :=
  [ "virtio-" ++ substring 0 20 volumeID;
    "scsi-0QEMU_QEMU_HARDDISK_" ++ substring 0 20 volumeID;
    "wwn-0x" ++ remove_hyphens volumeID ].

(** A directory entry that equals some candidate. *)
Definition is_candidate (candidates : list string) (f : FileInfo) : bool :=
  existsb (fun c => String.eqb c (Name f)) candidates.

(** "the first matching candidate in the fixed priority order wins": the
    path of the first candidate, in candidate order, that some listed entry
    equals. *)
Definition resolve_by_candidate_priority (files : list FileInfo)
           (candidates : list string) : option string :=
  match find (fun c => existsb (fun f => String.eqb c (Name f)) files)
             candidates with
  | Some c => Some (path_Join [by_id_dir; c])
  | None => None
  end.

(** The rank of a name by its first byte; the order of names refines
    it. *)
Definition first_byte (s : string) : N :=
  match s with
  | EmptyString => 0%N
  | String c _ => N.succ (N_of_ascii c)
  end.

Definition by_first_byte (f g : FileInfo) : Prop :=
  (first_byte (Name f) <= first_byte (Name g))%N.

(** Some entry of the list has this name. *)
Definition listed (name : string) (entries : list FileInfo) : Prop :=
  exists f, In f entries /\ Name f = name.

(** Whether some entry of the list has this name. *)
Definition listedb (name : string) (entries : list FileInfo) : bool :=
  existsb (fun f => String.eqb (Name f) name) entries.

(** A name a directory entry can have: not empty, not [.] or [..], and
    without a slash. *)
Definition entry_name_ok (name : string) : bool :=
  negb (String.eqb name "") && negb (String.eqb name ".")
  && negb (String.eqb name "..")
  && forallb (fun c => negb (Ascii.eqb c slash)) (list_ascii_of_string name).

(** The by-id directory replaced by [d], every other directory as in
    [fs]. *)
Definition with_by_id (fs : FileSystem) (d : DirState) : FileSystem :=
  fun dirname => if String.eqb dirname by_id_dir then d else fs dirname.

End Design.

(* ================================================================= *)
(** ** A small host to run the handlers on *)
(* ================================================================= *)

Module Fixture.
Import Go Cinder.

(** A host with its by-id directory, the target paths that are mounted
    and what the instance-id lookup answers. *)
Record Host : Type :=
  mkHost { by_id : DirState;
           mounted : list string;
           instance : string * option error;
           provider_ready : bool }.

Definition host_fs (h : Host) : FileSystem :=
  fun dirname =>
    if String.eqb dirname by_id_dir then by_id h
    else DirUnreadable (PlainError "no such file or directory").

Definition is_mounted (p : string) (h : Host) : bool :=
  existsb (String.eqb p) (mounted h).

Definition provider : IMount Host :=
  {| ScanForAttach := fun _ h => (None, h);
     IsLikelyNotMountPointAttach :=
       fun p h => ((negb (is_mounted p h), None), h);
     IsLikelyNotMountPointDetach :=
       fun p h => ((negb (is_mounted p h), None), h);
     FormatAndMount :=
       fun _ target _ _ h =>
         (None, mkHost (by_id h) (target :: mounted h) (instance h)
                       (provider_ready h));
     UnmountPath :=
       fun p h =>
         (None, mkHost (by_id h)
                       (filter (fun q => negb (String.eqb p q)) (mounted h))
                       (instance h) (provider_ready h));
     GetInstanceID := fun h => (instance h, h) |}.

Definition host_provider (h : Host) : IMount Host + error :=
  if provider_ready h then inl provider
  else inr (PlainError "mount provider not initialised").

Definition default_server : DefaultNodeServer Host :=
  {| DefaultNodeGetId :=
       fun _ => ret (Some {| NodeId := "default-node" |}, None);
     DefaultNodeGetInfo :=
       fun _ => ret (Some {| InfoNodeId := "default-node";
                             MaxVolumesPerNode := 0 |}, None) |}.

Definition server : nodeServer Host := {| Default := default_server |}.

Definition vol : string := "6f2a9c1e-3b4d-4e5f-8a7b-0c1d2e3f4a5b".
Definition vol_twin : string := "6f2a9c1e-3b4d-4e5f-8000-000000000000".

Definition virtio_entry : FileInfo :=
  mkFileInfo "virtio-6f2a9c1e-3b4d-4e5f-8".
Definition scsi_entry : FileInfo :=
  mkFileInfo "scsi-0QEMU_QEMU_HARDDISK_6f2a9c1e-3b4d-4e5f-8".
Definition other_entry : FileInfo :=
  mkFileInfo "ata-QEMU_DVD-ROM_QM00001".

(** The volume attached through virtio-blk and mounted nowhere. *)
Definition attached : Host :=
  mkHost (DirEntries [other_entry; virtio_entry]) [] ("i-0042", None) true.

(** The same volume already mounted at [/mnt/data]. *)
Definition published : Host :=
  mkHost (DirEntries [other_entry; virtio_entry]) ["/mnt/data"]
         ("i-0042", None) true.

(** Both a virtio and a virtio-scsi name of the volume are listed. *)
Definition both_listed : Host :=
  mkHost (DirEntries [scsi_entry; virtio_entry]) [] ("i-0042", None) true.

(** The virtio name of the volume is the only entry. *)
Definition only_virtio : Host :=
  mkHost (DirEntries [virtio_entry]) [] ("i-0042", None) true.

(** No device of the volume is listed. *)
Definition detached : Host :=
  mkHost (DirEntries [other_entry]) [] ("", None) true.

(** The by-id directory cannot be read. *)
Definition unreadable : Host :=
  mkHost (DirUnreadable (PlainError "permission denied")) []
         ("", Some (PlainError "metadata service unreachable")) true.

(** The mount provider cannot be obtained. *)
Definition no_provider : Host :=
  mkHost (DirEntries [virtio_entry]) [] ("i-0042", None) false.

Definition publish_req (ro : bool) : NodePublishVolumeRequest :=
  {| volume_id := vol;
     target_path := "/mnt/data";
     volume_capability :=
       Some {| access_type :=
                 Some (VolumeCapability_Mount
                         (Some {| fs_type := "ext4";
                                  mount_flags := ["noatime"; "discard"] |}))
            |};
     readonly := ro |}.

Definition unpublish_req : NodeUnpublishVolumeRequest :=
  {| unpublish_volume_id := vol; unpublish_target_path := "/mnt/data" |}.

(** A provider whose operations fail on demand, on the same host. *)
Record Faults : Type :=
  mkFaults { scan_fault : option error;
             attach_check_fault : option error;
             detach_check_fault : option error;
             mount_fault : option error;
             unmount_fault : option error }.

Definition faulty_provider (ft : Faults) : IMount Host :=
  {| ScanForAttach := fun _ h => (scan_fault ft, h);
     IsLikelyNotMountPointAttach :=
       fun p h => ((negb (is_mounted p h), attach_check_fault ft), h);
     IsLikelyNotMountPointDetach :=
       fun p h => ((negb (is_mounted p h), detach_check_fault ft), h);
     FormatAndMount :=
       fun d t fstype o h =>
         match mount_fault ft with
         | Some e => (Some e, h)
         | None => FormatAndMount provider d t fstype o h
         end;
     UnmountPath :=
       fun p h =>
         match unmount_fault ft with
         | Some e => (Some e, h)
         | None => UnmountPath provider p h
         end;
     GetInstanceID := fun h => (instance h, h) |}.

Definition faulty (ft : Faults) (h : Host) : IMount Host + error :=
  inl (faulty_provider ft).

Definition io_error : error := PlainError "input/output error".

Definition scan_fails : Faults := mkFaults (Some io_error) None None None None.
Definition attach_check_fails : Faults :=
  mkFaults None (Some io_error) None None None.
Definition detach_check_fails : Faults :=
  mkFaults None None (Some io_error) None None.
Definition mount_fails : Faults := mkFaults None None None (Some io_error) None.
Definition unmount_fails : Faults :=
  mkFaults None None None None (Some io_error).

(** The three names of the volume all listed, in no particular order. *)
Definition wwn_entry : FileInfo :=
  mkFileInfo "wwn-0x6f2a9c1e3b4d4e5f8a7b0c1d2e3f4a5b".

Definition all_listed : Host :=
  mkHost (DirEntries [wwn_entry; virtio_entry; other_entry; scsi_entry]) []
         ("i-0042", None) true.

Definition all_listed_again : Host :=
  mkHost (DirEntries [scsi_entry; other_entry; wwn_entry; virtio_entry;
                      scsi_entry]) []
         ("i-0042", None) true.

Definition short_req : NodePublishVolumeRequest :=
  {| volume_id := "vol-1"; target_path := "/mnt/data";
     volume_capability := None; readonly := false |}.

(** A request for the volume as a raw block device. *)
Definition block_req : NodePublishVolumeRequest :=
  {| volume_id := vol; target_path := "/mnt/data";
     volume_capability :=
       Some {| access_type := Some VolumeCapability_Block |};
     readonly := false |}.

(** The handlers of the node server on this host. *)
Definition publish := NodePublishVolume host_fs host_provider server.
Definition unpublish := NodeUnpublishVolume host_provider server.
Definition get_id := NodeGetId host_provider server.
Definition get_info := NodeGetInfo host_provider server.

End Fixture.

(* ================================================================= *)
(** ** Properties *)
(* ================================================================= *)

Import Go Cinder Design.

(** *** strings.Replace as used for the WWN name *)

Lemma prefix_empty (s : string) : prefix "" s = true.
Proof. destruct s; reflexivity. Qed.

Lemma replace_scan_hyphen (s : string) :
  replace_scan "-" "" None 0 s = remove_hyphens s.
Proof.
  induction s as [|c s IH]; [reflexivity|].
  cbn [replace_scan remove_hyphens may_replace used_one andb
       String.length Nat.pred].
  cbn [prefix]. rewrite prefix_empty.
  destruct (ascii_dec "-" c) as [<-|Hne].
  - cbn. exact IH.
  - destruct (Ascii.eqb c "-") eqn:E.
    + apply Ascii.eqb_eq in E. congruence.
    + now rewrite IH.
Qed.

Lemma strings_Replace_hyphen (s : string) :
  strings_Replace s "-" "" (-1) = remove_hyphens s.
Proof. unfold strings_Replace. cbn. apply replace_scan_hyphen. Qed.

Lemma remove_hyphens_clean (s : string) (n : nat) :
  get n (remove_hyphens s) <> Some "-"%char.
Proof.
  revert n. induction s as [|c s IH]; intros n; cbn.
  - destruct n; discriminate.
  - destruct (Ascii.eqb c "-") eqn:E; [apply IH|].
    destruct n; cbn; [|apply IH].
    intros H. injection H as ->. discriminate.
Qed.

(** *** The library models on cases of the Go test suites *)

Example Clean_cases :
  map path_Clean
      [""; "/"; "abc//def//ghi"; "abc/./def"; "abc/def/../../..";
       "/abc/def/../../.."; "abc/./../def"; "../../abc"; "/../abc"]
  = ["."; "/"; "abc/def/ghi"; "abc/def"; "..";
     "/"; "def"; "../../abc"; "/abc"].
Proof. reflexivity. Qed.

Example Join_cases :
  map path_Join [[]; [""]; ["a"; ""]; [""; "a"]; ["a"; "b"]; ["a/"; "b"];
                 ["/"; "a"]; ["a"; "../.."]]
  = [""; ""; "a"; "a"; "a/b"; "a/b"; "/a"; ".."].
Proof. reflexivity. Qed.

Example Replace_cases :
  [ strings_Replace "banana" "a" "<>" (-1);
    strings_Replace "banana" "a" "<>" 1;
    strings_Replace "banana" "an" "<>" (-1);
    strings_Replace "banana" "a" "a" (-1);
    strings_Replace "oink oink oink" "k" "ky" 2 ]
  = [ "b<>n<>n<>"; "b<>nana"; "b<><>a"; "banana"; "oinky oinky oink" ].
Proof. reflexivity. Qed.

Example ReadDir_sorts :
  ioutil_ReadDir (fun _ => DirEntries [Fixture.virtio_entry;
                                       Fixture.other_entry;
                                       Fixture.scsi_entry]) by_id_dir
  = ([Fixture.other_entry; Fixture.scsi_entry; Fixture.virtio_entry], None).
Proof. reflexivity. Qed.

Example short_id_panics :
  getDevicePathBySerialID (Fixture.host_fs Fixture.attached) "too-short"
  = Panic.
Proof. reflexivity. Qed.

(** *** path.Join on the by-id directory *)

Lemma string_of_list_ascii_app (a b : list ascii) :
  string_of_list_ascii (a ++ b)%list =
  string_of_list_ascii a ++ string_of_list_ascii b.
Proof. induction a as [|c a IH]; cbn; [reflexivity|now rewrite IH]. Qed.

Lemma clean_loop_copy (rooted : bool) (dotdot : nat) (rest out : list ascii) :
  forallb (fun c => negb (Ascii.eqb c slash)) rest = true ->
  clean_loop rooted true dotdot out rest = (rev rest ++ out)%list.
Proof.
  revert out. induction rest as [|c rest IH]; intros out H; [reflexivity|].
  cbn in H. apply andb_true_iff in H. destruct H as [Hc Hrest].
  cbn [clean_loop]. apply negb_true_iff in Hc. rewrite Hc.
  rewrite (IH _ Hrest). cbn [rev]. now rewrite <- app_assoc.
Qed.

Lemma clean_loop_element (dotdot : nat) (name : string) (out : list ascii) :
  entry_name_ok name = true ->
  2 <= List.length out ->
  clean_loop true false dotdot out (list_ascii_of_string name) =
  (rev (list_ascii_of_string name) ++ slash :: out)%list.
Proof.
  unfold entry_name_ok. intros Hok Hout.
  repeat (apply andb_true_iff in Hok; destruct Hok as [Hok ?]).
  destruct name as [|c name]; [discriminate|].
  cbn [list_ascii_of_string] in *.
  match goal with H : forallb _ (_ :: _) = true |- _ =>
    cbn in H; apply andb_true_iff in H; destruct H as [Hc Hrest] end.
  apply negb_true_iff in Hc.
  assert (Hlen : (List.length out =? 1)%nat = false)
    by (apply Nat.eqb_neq; lia).
  assert (Helem : clean_loop true true dotdot (c :: slash :: out)
                             (list_ascii_of_string name)
                  = (rev (c :: list_ascii_of_string name) ++ slash :: out)%list).
  { rewrite (clean_loop_copy _ _ _ _ Hrest). cbn [rev].
    now rewrite <- app_assoc. }
  cbn [clean_loop]. rewrite Hc, Hlen. cbn [andb negb orb].
  destruct (Ascii.eqb c dot) eqn:Hdot; cbn [andb].
  - apply Ascii.eqb_eq in Hdot. subst c.
    destruct name as [|c2 name]; [discriminate|].
    cbn [list_ascii_of_string at_element_end] in *.
    cbn in Hrest. apply andb_true_iff in Hrest. destruct Hrest as [Hc2 Hrest].
    apply negb_true_iff in Hc2. rewrite Hc2.
    destruct (Ascii.eqb c2 dot) eqn:Hdot2; cbn [andb]; [|exact Helem].
    apply Ascii.eqb_eq in Hdot2. subst c2.
    destruct name as [|c3 name]; [discriminate|].
    cbn [list_ascii_of_string at_element_end] in *.
    cbn in Hrest. apply andb_true_iff in Hrest. destruct Hrest as [Hc3 _].
    apply negb_true_iff in Hc3. rewrite Hc3. exact Helem.
  - destruct (list_ascii_of_string name); exact Helem.
Qed.

(** For the name of a directory entry the joined path is the directory
    followed by the name. *)
Lemma path_Join_by_id (name : string) :
  entry_name_ok name = true ->
  path_Join [by_id_dir; name] = by_id_dir ++ name.
Proof.
  intros Hok. unfold path_Join, by_id_dir. cbn [fold_right String.length
    Nat.add Nat.eqb join_buf negb orb String.eqb Ascii.eqb Bool.eqb].
  change (path_Clean (String "/" ("dev/disk/by-id//" ++ name)) =
          "/dev/disk/by-id/" ++ name).
  unfold path_Clean.
  assert (Hl : list_ascii_of_string (String "/" ("dev/disk/by-id//" ++ name))
               = (slash :: list_ascii_of_string "dev/disk/by-id//"
                        ++ list_ascii_of_string name)%list) by reflexivity.
  rewrite Hl. cbv beta iota.
  change (Ascii.eqb slash slash) with true. cbv beta iota.
  assert (Hpre : clean_loop true false 1 [slash]
                   (list_ascii_of_string "dev/disk/by-id//"
                      ++ list_ascii_of_string name)%list
                 = clean_loop true false 1
                     (rev (list_ascii_of_string "/dev/disk/by-id"))
                     (list_ascii_of_string name)) by reflexivity.
  rewrite Hpre.
  rewrite (clean_loop_element _ _ _ Hok) by (cbn; lia).
  destruct (rev (list_ascii_of_string name) ++ _)%list eqn:E.
  - destruct (rev (list_ascii_of_string name)); discriminate.
  - rewrite <- E. rewrite rev_app_distr, rev_involutive.
    rewrite string_of_list_ascii_app, string_of_list_ascii_of_string.
    reflexivity.
Qed.

(** *** The candidate names *)

Lemma slice_to_20 (volumeID : string) :
  20 <= String.length volumeID ->
  slice_to volumeID 20 = Done (substring 0 20 volumeID).
Proof.
  intros H. unfold slice_to.
  now rewrite (proj2 (Nat.leb_le _ _) H).
Qed.

Lemma candidateDeviceNodes_long (volumeID : string) :
  20 <= String.length volumeID ->
  candidateDeviceNodes volumeID = Done (three_candidates volumeID).
Proof.
  intros H. unfold candidateDeviceNodes, three_candidates, Sprintf_s.
  rewrite (slice_to_20 _ H). cbn [exec_bind].
  now rewrite strings_Replace_hyphen.
Qed.

Lemma candidateDeviceNodes_short (volumeID : string) :
  String.length volumeID < 20 ->
  candidateDeviceNodes volumeID = Panic.
Proof.
  intros H. unfold candidateDeviceNodes, slice_to.
  now rewrite (proj2 (Nat.leb_gt _ _) H).
Qed.

(** *** The search loops *)

Lemma match_candidates_spec (f : FileInfo) (candidates : list string) :
  match_candidates f candidates =
  if is_candidate candidates f
  then Some (path_Join [by_id_dir; Name f]) else None.
Proof.
  unfold is_candidate.
  induction candidates as [|c rest IH]; [reflexivity|].
  cbn. destruct (String.eqb c (Name f)); [reflexivity|exact IH].
Qed.

Lemma search_files_find (files : list FileInfo) (candidates : list string) :
  search_files files candidates =
  match find (is_candidate candidates) files with
  | Some f => Some (path_Join [by_id_dir; Name f])
  | None => None
  end.
Proof.
  induction files as [|f rest IH]; [reflexivity|].
  cbn. rewrite match_candidates_spec.
  destruct (is_candidate candidates f); [reflexivity|exact IH].
Qed.

Lemma getDevicePathBySerialID_long (fs : FileSystem) (volumeID : string) :
  20 <= String.length volumeID ->
  getDevicePathBySerialID fs volumeID =
  Done match find (is_candidate (three_candidates volumeID))
                  (fst (ioutil_ReadDir fs by_id_dir)) with
       | Some f => (path_Join [by_id_dir; Name f], None)
       | None => ("", Some (StatusError Internal
                              "Failed to find device by volume ID"))
       end.
Proof.
  intros H. unfold getDevicePathBySerialID.
  rewrite (candidateDeviceNodes_long _ H). cbn [exec_bind].
  destruct (ioutil_ReadDir fs by_id_dir) as [files err]. cbn [fst].
  rewrite search_files_find.
  destruct (find _ files); reflexivity.
Qed.

Lemma substring_length (s : string) (n : nat) :
  n <= String.length s -> String.length (substring 0 n s) = n.
Proof.
  revert n. induction s as [|c s IH]; intros [|n] H; cbn in *;
    try reflexivity; try lia.
  rewrite IH; lia.
Qed.

Lemma substring_is_prefix (s : string) (n : nat) :
  prefix (substring 0 n s) s = true.
Proof.
  revert n. induction s as [|c s IH]; intros [|n]; cbn; try reflexivity.
  destruct (ascii_dec c c); [apply IH|congruence].
Qed.

(** *** The order in which ioutil.ReadDir lists the entries *)

Lemma leb_first_byte (a b : string) :
  String.leb a b = true -> (first_byte a <= first_byte b)%N.
Proof.
  unfold String.leb. destruct a as [|c1 a], b as [|c2 b]; cbn;
    try discriminate; try lia.
  unfold Ascii.compare.
  destruct (N.compare_spec (N_of_ascii c1) (N_of_ascii c2));
    intros; try discriminate; lia.
Qed.

Lemma not_leb_first_byte (a b : string) :
  String.leb a b = false -> (first_byte b <= first_byte a)%N.
Proof.
  unfold String.leb. destruct a as [|c1 a], b as [|c2 b]; cbn;
    try discriminate; try lia.
  unfold Ascii.compare.
  destruct (N.compare_spec (N_of_ascii c1) (N_of_ascii c2));
    intros; try discriminate; lia.
Qed.

Lemma insert_by_name_perm (f : FileInfo) (l : list FileInfo) :
  Permutation (f :: l) (insert_by_name f l).
Proof.
  induction l as [|g l IH]; cbn; [reflexivity|].
  destruct (String.leb (Name f) (Name g)); [reflexivity|].
  rewrite perm_swap. now apply perm_skip.
Qed.

Lemma sort_by_name_perm (l : list FileInfo) :
  Permutation l (sort_by_name l).
Proof.
  induction l as [|f l IH]; cbn; [reflexivity|].
  rewrite <- insert_by_name_perm. now apply perm_skip.
Qed.

Lemma insert_by_name_sorted (f : FileInfo) (l : list FileInfo) :
  StronglySorted by_first_byte l ->
  StronglySorted by_first_byte (insert_by_name f l).
Proof.
  induction l as [|g l IH]; intros Hs; cbn.
  - constructor; constructor.
  - apply StronglySorted_inv in Hs. destruct Hs as [Hl Hg].
    destruct (String.leb (Name f) (Name g)) eqn:E.
    + apply leb_first_byte in E.
      constructor; [now constructor|].
      constructor; [exact E|].
      eapply Forall_impl; [|exact Hg].
      unfold by_first_byte in *. intros h Hh. lia.
    + apply not_leb_first_byte in E.
      constructor; [now apply IH|].
      eapply Permutation_Forall; [apply insert_by_name_perm|].
      constructor; assumption.
Qed.

Lemma sort_by_name_sorted (l : list FileInfo) :
  StronglySorted by_first_byte (sort_by_name l).
Proof.
  induction l as [|f l IH]; cbn; [constructor|].
  now apply insert_by_name_sorted.
Qed.

(** In a sorted list the first entry that satisfies [p] ranks no higher
    than any entry that satisfies [p]. *)
Lemma find_sorted_least (p : FileInfo -> bool) (l : list FileInfo)
      (f g : FileInfo) :
  StronglySorted by_first_byte l ->
  find p l = Some f -> In g l -> p g = true -> by_first_byte f g.
Proof.
  induction l as [|h l IH]; intros Hs Hfind Hin Hp; [destruct Hin|].
  apply StronglySorted_inv in Hs. destruct Hs as [Hl Hh].
  cbn in Hfind. destruct (p h) eqn:Eh.
  - injection Hfind as <-. destruct Hin as [<-|Hin].
    + unfold by_first_byte. lia.
    + rewrite Forall_forall in Hh. now apply Hh.
  - destruct Hin as [<-|Hin]; [congruence|]. now apply IH.
Qed.

(** C6: for a volume id of at least 20 bytes the candidate names built by
    getDevicePathBySerialID are exactly three, a function of the id alone:
    "virtio-" and "scsi-0QEMU_QEMU_HARDDISK_" each followed by the first 20
    bytes of the id, and "wwn-0x" followed by the id with every hyphen
    removed. *)
Theorem candidate_names_exactly_three (volumeID : string) :
  20 <= String.length volumeID ->
  candidateDeviceNodes volumeID =
    Done [ "virtio-" ++ substring 0 20 volumeID;
           "scsi-0QEMU_QEMU_HARDDISK_" ++ substring 0 20 volumeID;
           "wwn-0x" ++ remove_hyphens volumeID ]
  /\ String.length (substring 0 20 volumeID) = 20
  /\ prefix (substring 0 20 volumeID) volumeID = true
  /\ (forall n, get n (remove_hyphens volumeID) <> Some "-"%char).
Proof.
  intros H. split; [|split; [|split]].
  - exact (candidateDeviceNodes_long volumeID H).
  - now apply substring_length.
  - apply substring_is_prefix.
  - apply remove_hyphens_clean.
Qed.

Lemma candidate_names_exactly_three_witness :
  20 <= String.length Fixture.vol
  /\ candidateDeviceNodes Fixture.vol =
       Done [ "virtio-6f2a9c1e-3b4d-4e5f-8";
              "scsi-0QEMU_QEMU_HARDDISK_6f2a9c1e-3b4d-4e5f-8";
              "wwn-0x6f2a9c1e3b4d4e5f8a7b0c1d2e3f4a5b" ].
Proof.
  assert (H : 20 <= String.length Fixture.vol) by (vm_compute; lia).
  split; [exact H|].
  exact (proj1 (candidate_names_exactly_three Fixture.vol H)).
Defined.

(** C1 (as the code has it): for a volume id of at least 20 bytes,
    getDevicePathBySerialID returns the path of the first directory entry,
    in the order ioutil.ReadDir lists the entries, that equals any of the
    three candidates: the order of the entries decides, not the order of
    the candidates. *)
Theorem resolve_first_listed_entry
        (fs : FileSystem) (volumeID : string) (f : FileInfo) :
  20 <= String.length volumeID ->
  find (is_candidate (three_candidates volumeID))
       (fst (ioutil_ReadDir fs by_id_dir)) = Some f ->
  getDevicePathBySerialID fs volumeID =
  Done (path_Join [by_id_dir; Name f], None).
Proof.
  intros Hlen Hfind.
  rewrite (getDevicePathBySerialID_long fs volumeID Hlen).
  now rewrite Hfind.
Qed.

Lemma resolve_first_listed_entry_witness :
  getDevicePathBySerialID (Fixture.host_fs Fixture.both_listed) Fixture.vol =
  Done ("/dev/disk/by-id/scsi-0QEMU_QEMU_HARDDISK_6f2a9c1e-3b4d-4e5f-8", None).
Proof.
  apply (resolve_first_listed_entry
           (Fixture.host_fs Fixture.both_listed) Fixture.vol
           Fixture.scsi_entry).
  - vm_compute; lia.
  - vm_compute; reflexivity.
Defined.

Lemma is_candidate_name (volumeID : string) (f : FileInfo) :
  is_candidate (three_candidates volumeID) f = true <->
  In (Name f) (three_candidates volumeID).
Proof.
  unfold is_candidate. rewrite existsb_exists. split.
  - intros [c [Hc Heq]]. apply String.eqb_eq in Heq. now subst.
  - intros H. exists (Name f). split; [exact H|apply String.eqb_refl].
Qed.

(** The first candidate entry of the listing, when the directory holds
    one: it is an entry of the directory, named by a candidate, and ranks no
    higher than any other candidate entry. *)
Lemma first_candidate_entry
      (fs : FileSystem) (volumeID : string) (entries : list FileInfo)
      (g : FileInfo) :
  fs by_id_dir = DirEntries entries ->
  In g entries ->
  In (Name g) (three_candidates volumeID) ->
  exists f,
    find (is_candidate (three_candidates volumeID))
         (fst (ioutil_ReadDir fs by_id_dir)) = Some f
    /\ In f entries
    /\ In (Name f) (three_candidates volumeID)
    /\ by_first_byte f g.
Proof.
  intros Hdir Hg Hcand. unfold ioutil_ReadDir. rewrite Hdir. cbn [fst].
  assert (Hg' : In g (sort_by_name entries))
    by (eapply Permutation_in; [apply sort_by_name_perm|exact Hg]).
  apply is_candidate_name in Hcand.
  destruct (find (is_candidate (three_candidates volumeID))
                 (sort_by_name entries)) as [f|] eqn:Hfind.
  - exists f. pose proof (find_some _ _ Hfind) as [Hin Hp].
    split; [reflexivity|]. split; [|split].
    + eapply Permutation_in; [symmetry; apply sort_by_name_perm|exact Hin].
    + now apply is_candidate_name.
    + eapply find_sorted_least; eauto using sort_by_name_sorted.
  - pose proof (find_none _ _ Hfind g Hg') as Hn. congruence.
Qed.

(** In effect: since ioutil.ReadDir lists the entries sorted by name, a
    listed virtio-scsi name wins over a listed virtio name, which wins over
    a listed WWN name. *)
Lemma resolve_effective_priority
      (fs : FileSystem) (volumeID : string) (entries : list FileInfo) :
  20 <= String.length volumeID ->
  fs by_id_dir = DirEntries entries ->
  let kvm := "virtio-" ++ substring 0 20 volumeID in
  let scsi := "scsi-0QEMU_QEMU_HARDDISK_" ++ substring 0 20 volumeID in
  let wwn := "wwn-0x" ++ remove_hyphens volumeID in
  (listed scsi entries ->
   getDevicePathBySerialID fs volumeID =
     Done (path_Join [by_id_dir; scsi], None))
  /\ (~ listed scsi entries -> listed kvm entries ->
      getDevicePathBySerialID fs volumeID =
        Done (path_Join [by_id_dir; kvm], None))
  /\ (~ listed scsi entries -> ~ listed kvm entries -> listed wwn entries ->
      getDevicePathBySerialID fs volumeID =
        Done (path_Join [by_id_dir; wwn], None)).
Proof.
  intros Hlen Hdir kvm scsi wwn.
  assert (Hgo : forall g name,
             In g entries -> Name g = name ->
             In name (three_candidates volumeID) ->
             (forall f, In f entries ->
                        In (Name f) (three_candidates volumeID) ->
                        by_first_byte f g -> Name f = name) ->
             getDevicePathBySerialID fs volumeID =
               Done (path_Join [by_id_dir; name], None)).
  { intros g name Hg Hname Hcand Honly.
    rewrite <- Hname in Hcand.
    destruct (first_candidate_entry fs volumeID entries g Hdir Hg Hcand)
      as [f [Hfind [Hf [Hfc Hle]]]].
    rewrite (getDevicePathBySerialID_long fs volumeID Hlen), Hfind.
    now rewrite (Honly f Hf Hfc Hle). }
  unfold listed. repeat split.
  - intros [g [Hg Hname]].
    apply (Hgo g scsi Hg Hname); [cbn; auto|].
    intros f Hf Hfc Hle. unfold by_first_byte in Hle. rewrite Hname in Hle.
    destruct Hfc as [E|[E|[E|[]]]]; [| now symmetry |];
      rewrite <- E in Hle; cbn in Hle; lia.
  - intros Hno [g [Hg Hname]].
    apply (Hgo g kvm Hg Hname); [cbn; auto|].
    intros f Hf Hfc Hle. unfold by_first_byte in Hle. rewrite Hname in Hle.
    destruct Hfc as [E|[E|[E|[]]]]; [now symmetry| |].
    + destruct Hno. now exists f.
    + rewrite <- E in Hle; cbn in Hle; lia.
  - intros Hno1 Hno2 [g [Hg Hname]].
    apply (Hgo g wwn Hg Hname); [cbn; auto|].
    intros f Hf Hfc Hle.
    destruct Hfc as [E|[E|[E|[]]]]; [| |now symmetry].
    + destruct Hno2. now exists f.
    + destruct Hno1. now exists f.
Qed.

(** C1 as stated fails: with a virtio and a virtio-scsi entry both listed,
    the candidate priority order names the virtio entry, and the code
    returns the virtio-scsi entry, which the directory lists first. *)
Lemma candidate_priority_refuted :
  let fs := Fixture.host_fs Fixture.both_listed in
  let files := fst (ioutil_ReadDir fs by_id_dir) in
  20 <= String.length Fixture.vol
  /\ files = [Fixture.scsi_entry; Fixture.virtio_entry]
  /\ candidateDeviceNodes Fixture.vol =
       Done [ Name Fixture.virtio_entry; Name Fixture.scsi_entry;
              "wwn-0x6f2a9c1e3b4d4e5f8a7b0c1d2e3f4a5b" ]
  /\ resolve_by_candidate_priority files (three_candidates Fixture.vol) =
       Some "/dev/disk/by-id/virtio-6f2a9c1e-3b4d-4e5f-8"
  /\ getDevicePathBySerialID fs Fixture.vol =
       Done ("/dev/disk/by-id/scsi-0QEMU_QEMU_HARDDISK_6f2a9c1e-3b4d-4e5f-8",
             None)
  /\ getDevicePathBySerialID fs Fixture.vol <>
       Done ("/dev/disk/by-id/virtio-6f2a9c1e-3b4d-4e5f-8", None).
Proof.
  cbv zeta. repeat split; try (vm_compute; reflexivity).
  - vm_compute; lia.
  - vm_compute. discriminate.
Qed.

(** C2 (as the code has it): for a volume id of at least 20 bytes and a
    listing in which no entry equals a candidate, getDevicePathBySerialID
    returns the empty path and the status error of code Internal with the
    message "Failed to find device by volume ID". *)
Theorem resolve_no_match_internal (fs : FileSystem) (volumeID : string) :
  20 <= String.length volumeID ->
  (forall f c, In f (fst (ioutil_ReadDir fs by_id_dir)) ->
               In c (three_candidates volumeID) -> c <> Name f) ->
  getDevicePathBySerialID fs volumeID =
  Done ("", Some (StatusError Internal "Failed to find device by volume ID")).
Proof.
  intros Hlen Hnone.
  rewrite (getDevicePathBySerialID_long fs volumeID Hlen).
  destruct (find _ _) as [f|] eqn:Hfind; [|reflexivity].
  apply find_some in Hfind. destruct Hfind as [Hin Hcand].
  unfold is_candidate in Hcand. apply existsb_exists in Hcand.
  destruct Hcand as [c [Hc Heq]]. apply String.eqb_eq in Heq.
  now destruct (Hnone f c Hin Hc).
Qed.

Lemma resolve_no_match_internal_witness :
  getDevicePathBySerialID (Fixture.host_fs Fixture.detached) Fixture.vol =
  Done ("", Some (StatusError Internal "Failed to find device by volume ID")).
Proof.
  apply (resolve_no_match_internal
           (Fixture.host_fs Fixture.detached) Fixture.vol).
  - vm_compute; lia.
  - intros f c Hf Hc. vm_compute in Hf, Hc.
    destruct Hf as [<-|[]].
    destruct Hc as [<-|[<-|[<-|[]]]]; vm_compute; discriminate.
Defined.

(** C2 as stated fails: with no matching entry the error is of kind
    Internal, not NotFound. *)
Lemma resolve_no_match_not_NotFound :
  let fs := Fixture.host_fs Fixture.detached in
  20 <= String.length Fixture.vol
  /\ (forall f c, In f (fst (ioutil_ReadDir fs by_id_dir)) ->
                  In c (three_candidates Fixture.vol) -> c <> Name f)
  /\ exists p err,
       getDevicePathBySerialID fs Fixture.vol = Done (p, err)
       /\ status_Code err = Internal
       /\ status_Code err <> NotFound.
Proof.
  cbv zeta. split; [vm_compute; lia|]. split.
  - intros f c Hf Hc. vm_compute in Hf, Hc.
    destruct Hf as [<-|[]].
    destruct Hc as [<-|[<-|[<-|[]]]]; vm_compute; discriminate.
  - eexists. eexists. split; [vm_compute; reflexivity|].
    split; [reflexivity|discriminate].
Qed.

(** C7: for a volume id of at least 20 bytes, when the by-id directory
    cannot be listed the listing error is not returned:
    getDevicePathBySerialID gives what it gives on an empty directory, the
    no-match failure. *)
Theorem resolve_unreadable_as_empty
        (fs : FileSystem) (volumeID : string) (e : error) :
  20 <= String.length volumeID ->
  fs by_id_dir = DirUnreadable e ->
  getDevicePathBySerialID fs volumeID =
    getDevicePathBySerialID (with_by_id fs (DirEntries [])) volumeID
  /\ getDevicePathBySerialID fs volumeID =
       Done ("", Some (StatusError Internal
                         "Failed to find device by volume ID")).
Proof.
  intros Hlen Hdir.
  rewrite !(getDevicePathBySerialID_long _ volumeID Hlen).
  unfold ioutil_ReadDir, with_by_id. rewrite Hdir.
  rewrite String.eqb_refl. cbn. split; reflexivity.
Qed.

Lemma resolve_unreadable_as_empty_witness :
  getDevicePathBySerialID (Fixture.host_fs Fixture.unreadable) Fixture.vol =
  Done ("", Some (StatusError Internal "Failed to find device by volume ID")).
Proof.
  apply (resolve_unreadable_as_empty
           (Fixture.host_fs Fixture.unreadable) Fixture.vol
           (PlainError "permission denied")).
  - vm_compute; lia.
  - reflexivity.
Defined.

(** C10: two volume ids of at least 20 bytes that agree on their first 20
    bytes have the same virtio and virtio-scsi candidates, and against a
    directory whose only entry is named by one of these two candidates both
    ids resolve to the path of that entry. *)
Theorem resolve_shared_prefix (v1 v2 : string) :
  20 <= String.length v1 ->
  20 <= String.length v2 ->
  substring 0 20 v1 = substring 0 20 v2 ->
  (exists kvm scsi wwn1 wwn2,
      candidateDeviceNodes v1 = Done [kvm; scsi; wwn1]
      /\ candidateDeviceNodes v2 = Done [kvm; scsi; wwn2])
  /\ (forall (fs : FileSystem) (f : FileInfo),
         fs by_id_dir = DirEntries [f] ->
         Name f = "virtio-" ++ substring 0 20 v1
         \/ Name f = "scsi-0QEMU_QEMU_HARDDISK_" ++ substring 0 20 v1 ->
         getDevicePathBySerialID fs v1 =
           Done (path_Join [by_id_dir; Name f], None)
         /\ getDevicePathBySerialID fs v2 =
              Done (path_Join [by_id_dir; Name f], None)).
Proof.
  intros H1 H2 Hpre. split.
  - exists ("virtio-" ++ substring 0 20 v1),
           ("scsi-0QEMU_QEMU_HARDDISK_" ++ substring 0 20 v1),
           ("wwn-0x" ++ remove_hyphens v1), ("wwn-0x" ++ remove_hyphens v2).
    rewrite (candidateDeviceNodes_long v1 H1), (candidateDeviceNodes_long v2 H2).
    unfold three_candidates. rewrite <- Hpre. split; reflexivity.
  - intros fs f Hdir Hname.
    assert (Hfind : forall v, substring 0 20 v = substring 0 20 v1 ->
              find (is_candidate (three_candidates v))
                   (fst (ioutil_ReadDir fs by_id_dir)) = Some f).
    { intros v Hv. unfold ioutil_ReadDir. rewrite Hdir.
      cbn [fst sort_by_name fold_right insert_by_name find].
      unfold is_candidate, three_candidates. rewrite Hv.
      cbn [existsb].
      destruct Hname as [-> | ->]; rewrite String.eqb_refl;
        rewrite ?orb_true_r; reflexivity. }
    rewrite (getDevicePathBySerialID_long fs v1 H1).
    rewrite (getDevicePathBySerialID_long fs v2 H2).
    rewrite (Hfind v1 eq_refl), (Hfind v2 (eq_sym Hpre)).
    split; reflexivity.
Qed.

Lemma resolve_shared_prefix_witness :
  Fixture.vol <> Fixture.vol_twin
  /\ getDevicePathBySerialID (Fixture.host_fs Fixture.only_virtio)
                             Fixture.vol =
       Done ("/dev/disk/by-id/virtio-6f2a9c1e-3b4d-4e5f-8", None)
  /\ getDevicePathBySerialID (Fixture.host_fs Fixture.only_virtio)
                             Fixture.vol_twin =
       Done ("/dev/disk/by-id/virtio-6f2a9c1e-3b4d-4e5f-8", None).
Proof.
  split; [vm_compute; discriminate|].
  assert (H1 : 20 <= String.length Fixture.vol) by (vm_compute; lia).
  assert (H2 : 20 <= String.length Fixture.vol_twin) by (vm_compute; lia).
  assert (Hpre : substring 0 20 Fixture.vol = substring 0 20 Fixture.vol_twin)
    by reflexivity.
  exact (proj2 (resolve_shared_prefix Fixture.vol Fixture.vol_twin H1 H2 Hpre)
               (Fixture.host_fs Fixture.only_virtio) Fixture.virtio_entry
               eq_refl (or_introl eq_refl)).
Defined.

(** *** The handlers *)

(** Case analysis on every step of a handler run. *)
Ltac run_unfold :=
  unfold bind, ret, read_host, invoke, run, status_Error in *;
  cbn [world calls fst snd app] in *.

Ltac run_cases :=
  run_unfold;
  repeat (match goal with
          | |- context [match match ?x with _ => _ end with _ => _ end] =>
              destruct x eqn:?
          | H : context [match match ?x with _ => _ end with _ => _ end]
            |- _ => destruct x eqn:?
          | |- context [match ?x with _ => _ end] => destruct x eqn:?
          | H : context [match ?x with _ => _ end] |- _ => destruct x eqn:?
          end;
          cbn [world calls fst snd app] in *).

Section Handlers.

Context {World : Type}.
Variable filesystem : World -> FileSystem.
Variable GetMountProvider : World -> IMount World + error.
Variable ns : nodeServer World.

Local Abbreviation publish := (NodePublishVolume filesystem GetMountProvider ns).
Local Abbreviation unpublish := (NodeUnpublishVolume GetMountProvider ns).
Local Abbreviation get_id := (NodeGetId GetMountProvider ns).
Local Abbreviation get_info := (NodeGetInfo GetMountProvider ns).

(** C3: when the device is resolved, the mount provider is obtained, the
    scan succeeds and the provider's attach-variant mount-state check
    answers false with no error for the target path (the target is already
    a mount point), NodePublishVolume returns success, its only provider
    calls are the scan and the check, and it makes no FormatAndMount call:
    the host is left as the check left it. *)
Theorem publish_already_mounted
        (req : NodePublishVolumeRequest) (w w1 w2 : World)
        (devicePath : string) (m : IMount World) :
  getDevicePathBySerialID (filesystem w) (GetVolumeId req) =
    Done (devicePath, None) ->
  GetMountProvider w = inl m ->
  ScanForAttach m devicePath w = (None, w1) ->
  IsLikelyNotMountPointAttach m (GetTargetPath req) w1 = ((false, None), w2) ->
  run (publish req) w =
    (Done (Some mkNodePublishVolumeResponse, None),
     mkRun w2 [CallScanForAttach devicePath None;
               CallIsLikelyNotMountPointAttach (GetTargetPath req)
                                               (false, None)])
  /\ filter is_FormatAndMount (calls (snd (run (publish req) w))) = [].
Proof.
  intros Hdev Hprov Hscan Hchk.
  assert (Hrun : run (publish req) w =
                 (Done (Some mkNodePublishVolumeResponse, None),
                  mkRun w2 [CallScanForAttach devicePath None;
                            CallIsLikelyNotMountPointAttach
                              (GetTargetPath req) (false, None)])).
  { unfold NodePublishVolume. run_unfold.
    rewrite Hdev. cbv beta iota. cbn [world calls].
    rewrite Hprov. cbv beta iota. cbn [world calls].
    rewrite Hscan. cbv beta iota. cbn [world calls].
    rewrite Hchk. reflexivity. }
  split; [exact Hrun|]. rewrite Hrun. reflexivity.
Qed.

(** C5: when device resolution, provider acquisition, the scan and the
    mount-state check succeed and the check reports the target as not yet
    mounted, the publish run makes exactly one FormatAndMount call, on the
    resolved device, the target path and the file system type, with the
    options "ro" (readonly) or "rw" (otherwise) followed by the caller's
    mount flags in their order. *)
Theorem publish_mounts_once
        (req : NodePublishVolumeRequest) (w w1 w2 : World)
        (devicePath : string) (m : IMount World) :
  getDevicePathBySerialID (filesystem w) (GetVolumeId req) =
    Done (devicePath, None) ->
  GetMountProvider w = inl m ->
  ScanForAttach m devicePath w = (None, w1) ->
  IsLikelyNotMountPointAttach m (GetTargetPath req) w1 = ((true, None), w2) ->
  let fsType := GetFsType (GetMount (GetVolumeCapability req)) in
  let options :=
    (if GetReadonly req then "ro" else "rw")
      :: GetMountFlags (GetMount (GetVolumeCapability req)) in
  filter is_FormatAndMount (calls (snd (run (publish req) w))) =
  [CallFormatAndMount
     devicePath (GetTargetPath req) fsType options
     (fst (FormatAndMount m devicePath (GetTargetPath req) fsType options w2))].
Proof.
  intros Hdev Hprov Hscan Hchk fsType options.
  assert (Hopts : append_strings
                    (if GetReadonly req
                     then append_strings [] ["ro"]
                     else append_strings [] ["rw"])
                    (GetMountFlags (GetMount (GetVolumeCapability req)))
                  = options).
  { unfold options, append_strings. now destruct (GetReadonly req). }
  unfold NodePublishVolume. run_unfold.
  rewrite Hdev. cbv beta iota. cbn [world calls].
  rewrite Hprov. cbv beta iota. cbn [world calls].
  rewrite Hscan. cbv beta iota. cbn [world calls].
  rewrite Hchk. cbv beta iota. cbn [world calls app].
  rewrite Hopts. fold fsType.
  destruct (FormatAndMount m devicePath (GetTargetPath req) fsType options w2)
    as [[e|] w3]; reflexivity.
Qed.

(** C4 (as the code has it): when the mount provider is obtained and its
    detach-variant mount-state check answers true with no error for the
    target path (the target is not a mount point), NodeUnpublishVolume fails
    with the NotFound status error "Volume not mounted", its only provider
    call is the check, and it makes no UnmountPath call. *)
Theorem unpublish_not_mounted
        (req : NodeUnpublishVolumeRequest) (w w1 : World) (m : IMount World) :
  GetMountProvider w = inl m ->
  IsLikelyNotMountPointDetach m (GetUnpublishTargetPath req) w =
    ((true, None), w1) ->
  run (unpublish req) w =
    (Done (None, Some (StatusError NotFound "Volume not mounted")),
     mkRun w1 [CallIsLikelyNotMountPointDetach (GetUnpublishTargetPath req)
                                               (true, None)])
  /\ filter is_UnmountPath (calls (snd (run (unpublish req) w))) = [].
Proof.
  intros Hprov Hchk.
  assert (Hrun : run (unpublish req) w =
                 (Done (None, Some (StatusError NotFound
                                      "Volume not mounted")),
                  mkRun w1 [CallIsLikelyNotMountPointDetach
                              (GetUnpublishTargetPath req) (true, None)])).
  { unfold NodeUnpublishVolume. run_unfold.
    rewrite Hprov. cbv beta iota. cbn [world calls].
    rewrite Hchk. reflexivity. }
  split; [exact Hrun|]. rewrite Hrun. reflexivity.
Qed.

Lemma length_positive (s : string) :
  (0 <? String.length s)%nat = negb (String.eqb s "").
Proof. destruct s; reflexivity. Qed.

(** What getNodeID returns, by the behaviour of the provider. *)
Lemma getNodeID_run (w : World) :
  run (getNodeID GetMountProvider) w =
  match GetMountProvider w with
  | inr e => (Done ("", Some e), mkRun w [])
  | inl m =>
      let '((id, err), w') := GetInstanceID m w in
      (Done (match err with Some _ => "" | None => id end, err),
       mkRun w' [CallGetInstanceID (id, err)])
  end.
Proof.
  unfold getNodeID. run_unfold.
  destruct (GetMountProvider w) as [m|e]; [|reflexivity].
  cbv beta iota. cbn [world calls app].
  destruct (GetInstanceID m w) as [[id [e|]] w']; reflexivity.
Qed.

(** C8: NodeGetId answers with the provider's instance id when the lookup
    succeeds with a non-empty string, hands the call to the default
    responder when it succeeds with the empty string, and returns the error
    itself when the lookup or the provider acquisition fails. *)
Theorem NodeGetId_answers (req : NodeGetIdRequest) (w : World) :
  (forall m id w',
      GetMountProvider w = inl m ->
      GetInstanceID m w = ((id, None), w') ->
      id <> "" ->
      fst (run (get_id req) w) = Done (Some {| NodeId := id |}, None))
  /\ (forall m w',
         GetMountProvider w = inl m ->
         GetInstanceID m w = (("", None), w') ->
         run (get_id req) w =
         DefaultNodeGetId (Default ns) req
                          (mkRun w' [CallGetInstanceID ("", None)]))
  /\ (forall m id e w',
         GetMountProvider w = inl m ->
         GetInstanceID m w = ((id, Some e), w') ->
         fst (run (get_id req) w) = Done (None, Some e))
  /\ (forall e,
         GetMountProvider w = inr e ->
         fst (run (get_id req) w) = Done (None, Some e)).
Proof.
  unfold NodeGetId. repeat split.
  - intros m id w' Hprov Hid Hne.
    pose proof (getNodeID_run w) as Hrun. rewrite Hprov, Hid in Hrun.
    unfold run, bind in *. rewrite Hrun. cbv beta iota.
    rewrite length_positive.
    destruct (String.eqb id "") eqn:E; [|reflexivity].
    apply String.eqb_eq in E. contradiction.
  - intros m w' Hprov Hid.
    pose proof (getNodeID_run w) as Hrun. rewrite Hprov, Hid in Hrun.
    unfold run, bind in *. rewrite Hrun. reflexivity.
  - intros m id e w' Hprov Hid.
    pose proof (getNodeID_run w) as Hrun. rewrite Hprov, Hid in Hrun.
    unfold run, bind in *. rewrite Hrun. reflexivity.
  - intros e Hprov.
    pose proof (getNodeID_run w) as Hrun. rewrite Hprov in Hrun.
    unfold run, bind in *. rewrite Hrun. reflexivity.
Qed.

(** C9: on the same host NodeGetId and NodeGetInfo agree on the node id:
    both answer with the same non-empty id, or both return the same error,
    or both hand the call to the default responder, after the same
    lookup. *)
Theorem NodeGetId_NodeGetInfo_agree
        (rid : NodeGetIdRequest) (rinfo : NodeGetInfoRequest) (w : World) :
  (exists id,
      id <> ""
      /\ fst (run (get_id rid) w) = Done (Some {| NodeId := id |}, None)
      /\ fst (run (get_info rinfo) w) =
           Done (Some {| InfoNodeId := id; MaxVolumesPerNode := 0 |}, None))
  \/ (exists e,
         fst (run (get_id rid) w) = Done (None, Some e)
         /\ fst (run (get_info rinfo) w) = Done (None, Some e))
  \/ (exists after,
         run (getNodeID GetMountProvider) w = (Done ("", None), after)
         /\ run (get_id rid) w = DefaultNodeGetId (Default ns) rid after
         /\ run (get_info rinfo) w =
              DefaultNodeGetInfo (Default ns) rinfo after).
Proof.
  unfold NodeGetId, NodeGetInfo.
  pose proof (getNodeID_run w) as Hrun.
  unfold run, bind in *. rewrite Hrun. clear Hrun.
  destruct (GetMountProvider w) as [m|e].
  - destruct (GetInstanceID m w) as [[id [e|]] w'].
    + right. left. exists e. split; reflexivity.
    + cbv beta iota. rewrite length_positive.
      destruct (String.eqb id "") eqn:E.
      * apply String.eqb_eq in E. subst id.
        right. right. eexists. repeat split; reflexivity.
      * left. exists id. repeat split; try reflexivity.
        intros ->. discriminate.
  - right. left. exists e. split; reflexivity.
Qed.

End Handlers.

(** *** The handlers on the small host *)

Lemma publish_already_mounted_witness :
  run (Fixture.publish (Fixture.publish_req false)) Fixture.published
  = (Done (Some mkNodePublishVolumeResponse, None),
     mkRun Fixture.published
           [CallScanForAttach "/dev/disk/by-id/virtio-6f2a9c1e-3b4d-4e5f-8"
                              None;
            CallIsLikelyNotMountPointAttach "/mnt/data" (false, None)])
  /\ filter is_FormatAndMount
            (calls (snd (run (Fixture.publish (Fixture.publish_req false))
                             Fixture.published))) = [].
Proof.
  exact (publish_already_mounted
           Fixture.host_fs Fixture.host_provider Fixture.server
           (Fixture.publish_req false)
           Fixture.published Fixture.published Fixture.published
           "/dev/disk/by-id/virtio-6f2a9c1e-3b4d-4e5f-8" Fixture.provider
           eq_refl eq_refl eq_refl eq_refl).
Defined.

Lemma publish_mounts_once_witness :
  filter is_FormatAndMount
         (calls (snd (run (Fixture.publish (Fixture.publish_req false))
                          Fixture.attached)))
  = [CallFormatAndMount "/dev/disk/by-id/virtio-6f2a9c1e-3b4d-4e5f-8"
                        "/mnt/data" "ext4" ["rw"; "noatime"; "discard"] None]
  /\ filter is_FormatAndMount
            (calls (snd (run (Fixture.publish (Fixture.publish_req true))
                             Fixture.attached)))
     = [CallFormatAndMount "/dev/disk/by-id/virtio-6f2a9c1e-3b4d-4e5f-8"
                           "/mnt/data" "ext4" ["ro"; "noatime"; "discard"]
                           None].
Proof.
  split.
  - exact (publish_mounts_once
             Fixture.host_fs Fixture.host_provider Fixture.server
             (Fixture.publish_req false)
             Fixture.attached Fixture.attached Fixture.attached
             "/dev/disk/by-id/virtio-6f2a9c1e-3b4d-4e5f-8" Fixture.provider
             eq_refl eq_refl eq_refl eq_refl).
  - exact (publish_mounts_once
             Fixture.host_fs Fixture.host_provider Fixture.server
             (Fixture.publish_req true)
             Fixture.attached Fixture.attached Fixture.attached
             "/dev/disk/by-id/virtio-6f2a9c1e-3b4d-4e5f-8" Fixture.provider
             eq_refl eq_refl eq_refl eq_refl).
Defined.

Lemma unpublish_not_mounted_witness :
  run (Fixture.unpublish Fixture.unpublish_req) Fixture.attached
  = (Done (None, Some (StatusError NotFound "Volume not mounted")),
     mkRun Fixture.attached
           [CallIsLikelyNotMountPointDetach "/mnt/data" (true, None)])
  /\ filter is_UnmountPath
            (calls (snd (run (Fixture.unpublish Fixture.unpublish_req)
                             Fixture.attached))) = [].
Proof.
  exact (unpublish_not_mounted
           Fixture.host_provider Fixture.server Fixture.unpublish_req
           Fixture.attached Fixture.attached Fixture.provider
           eq_refl eq_refl).
Defined.

(** C4 as stated fails: on a target that the provider reports as not
    mounted the error is NotFound, but its message is not the claim's
    "volume not mounted": the code spells it "Volume not mounted". *)
Lemma unpublish_message_refuted :
  Fixture.host_provider Fixture.attached = inl Fixture.provider
  /\ IsLikelyNotMountPointDetach
       Fixture.provider (GetUnpublishTargetPath Fixture.unpublish_req)
       Fixture.attached
     = ((true, None), Fixture.attached)
  /\ fst (run (Fixture.unpublish Fixture.unpublish_req) Fixture.attached)
     = Done (None, Some (StatusError NotFound "Volume not mounted"))
  /\ fst (run (Fixture.unpublish Fixture.unpublish_req) Fixture.attached)
     <> Done (None, Some (StatusError NotFound "volume not mounted")).
Proof.
  repeat split; try reflexivity. vm_compute. discriminate.
Qed.

Lemma NodeGetId_answers_witness :
  fst (run (Fixture.get_id mkNodeGetIdRequest) Fixture.attached)
  = Done (Some {| NodeId := "i-0042" |}, None)
  /\ fst (run (Fixture.get_id mkNodeGetIdRequest) Fixture.detached)
     = Done (Some {| NodeId := "default-node" |}, None)
  /\ fst (run (Fixture.get_id mkNodeGetIdRequest) Fixture.unreadable)
     = Done (None, Some (PlainError "metadata service unreachable"))
  /\ fst (run (Fixture.get_id mkNodeGetIdRequest) Fixture.no_provider)
     = Done (None, Some (PlainError "mount provider not initialised")).
Proof.
  pose proof (fun w => NodeGetId_answers Fixture.host_provider Fixture.server
                         mkNodeGetIdRequest w) as T.
  split; [|split; [|split]].
  - apply (proj1 (T Fixture.attached) Fixture.provider "i-0042"
                 Fixture.attached eq_refl eq_refl).
    discriminate.
  - unfold Fixture.get_id.
    rewrite (proj1 (proj2 (T Fixture.detached)) Fixture.provider
                   Fixture.detached eq_refl eq_refl).
    reflexivity.
  - exact (proj1 (proj2 (proj2 (T Fixture.unreadable))) Fixture.provider ""
                 (PlainError "metadata service unreachable")
                 Fixture.unreadable eq_refl eq_refl).
  - exact (proj2 (proj2 (proj2 (T Fixture.no_provider)))
                 (PlainError "mount provider not initialised") eq_refl).
Defined.

(* ================================================================= *)
(** ** Further properties of the node server *)
(* ================================================================= *)

(** *** getDevicePathBySerialID *)

Lemma listedb_spec (name : string) (entries : list FileInfo) :
  listedb name entries = true <-> listed name entries.
Proof.
  unfold listedb, listed. rewrite existsb_exists. split.
  - intros [f [Hf E]]. apply String.eqb_eq in E. now exists f.
  - intros [f [Hf E]]. exists f. split; [exact Hf|]. now apply String.eqb_eq.
Qed.

Lemma listedb_false (name : string) (entries : list FileInfo) :
  listedb name entries = false <-> ~ listed name entries.
Proof.
  rewrite <- listedb_spec. destruct (listedb name entries); split;
    congruence.
Qed.

(** With no candidate among the names of the directory the lookup fails. *)
Lemma resolve_none_listed
      (fs : FileSystem) (volumeID : string) (entries : list FileInfo) :
  20 <= String.length volumeID ->
  fs by_id_dir = DirEntries entries ->
  (forall c, In c (three_candidates volumeID) -> ~ listed c entries) ->
  getDevicePathBySerialID fs volumeID =
  Done ("", Some (StatusError Internal "Failed to find device by volume ID")).
Proof.
  intros Hlen Hdir Hnone.
  rewrite (getDevicePathBySerialID_long fs volumeID Hlen).
  unfold ioutil_ReadDir. rewrite Hdir. cbn [fst].
  destruct (find _ _) as [f|] eqn:Hfind; [|reflexivity].
  apply find_some in Hfind. destruct Hfind as [Hin Hcand].
  apply is_candidate_name in Hcand.
  destruct (Hnone _ Hcand). exists f. split; [|reflexivity].
  eapply Permutation_in; [symmetry; apply sort_by_name_perm|exact Hin].
Qed.

Lemma resolve_short (fs : FileSystem) (volumeID : string) :
  String.length volumeID < 20 ->
  getDevicePathBySerialID fs volumeID = Panic.
Proof.
  intros H. unfold getDevicePathBySerialID.
  now rewrite (candidateDeviceNodes_short _ H).
Qed.

(** X1: getDevicePathBySerialID panics exactly on the volume ids shorter
    than 20 bytes, whatever the by-id directory holds. *)
Theorem resolve_panics_iff_short (fs : FileSystem) (volumeID : string) :
  getDevicePathBySerialID fs volumeID = Panic
  <-> String.length volumeID < 20.
Proof.
  split.
  - intros H. destruct (Nat.lt_ge_cases (String.length volumeID) 20)
      as [Hlt|Hge]; [exact Hlt|].
    rewrite (getDevicePathBySerialID_long fs volumeID Hge) in H.
    discriminate.
  - apply resolve_short.
Qed.

(** X2: for a volume id of at least 20 bytes the result is decided by
    which candidate names the directory holds, whatever their order and
    whatever else is listed: the virtio-scsi name if it is there, else the
    virtio name, else the WWN name, else the Internal failure with the empty
    path. *)
Theorem resolve_by_listed_names
        (fs : FileSystem) (volumeID : string) (entries : list FileInfo) :
  20 <= String.length volumeID ->
  fs by_id_dir = DirEntries entries ->
  let kvm := "virtio-" ++ substring 0 20 volumeID in
  let scsi := "scsi-0QEMU_QEMU_HARDDISK_" ++ substring 0 20 volumeID in
  let wwn := "wwn-0x" ++ remove_hyphens volumeID in
  getDevicePathBySerialID fs volumeID =
  Done (if listedb scsi entries then (path_Join [by_id_dir; scsi], None)
        else if listedb kvm entries then (path_Join [by_id_dir; kvm], None)
        else if listedb wwn entries then (path_Join [by_id_dir; wwn], None)
        else ("", Some (StatusError Internal
                          "Failed to find device by volume ID"))).
Proof.
  intros Hlen Hdir kvm scsi wwn.
  destruct (resolve_effective_priority fs volumeID entries Hlen Hdir)
    as [Hscsi [Hkvm Hwwn]].
  fold kvm scsi wwn in Hscsi, Hkvm, Hwwn.
  destruct (listedb scsi entries) eqn:Es.
  { apply Hscsi. now apply listedb_spec. }
  apply listedb_false in Es.
  destruct (listedb kvm entries) eqn:Ek.
  { apply Hkvm; [exact Es|]. now apply listedb_spec. }
  apply listedb_false in Ek.
  destruct (listedb wwn entries) eqn:Ew.
  { apply Hwwn; [exact Es|exact Ek|]. now apply listedb_spec. }
  apply listedb_false in Ew.
  apply (resolve_none_listed fs volumeID entries Hlen Hdir).
  intros c [<-|[<-|[<-|[]]]]; assumption.
Qed.

Lemma resolve_by_listed_names_witness :
  getDevicePathBySerialID (Fixture.host_fs Fixture.all_listed) Fixture.vol =
  Done ("/dev/disk/by-id/scsi-0QEMU_QEMU_HARDDISK_6f2a9c1e-3b4d-4e5f-8", None).
Proof.
  assert (H : 20 <= String.length Fixture.vol) by (vm_compute; lia).
  exact (resolve_by_listed_names
           (Fixture.host_fs Fixture.all_listed) Fixture.vol
           [Fixture.wwn_entry; Fixture.virtio_entry; Fixture.other_entry;
            Fixture.scsi_entry] H eq_refl).
Defined.

(** X3: two by-id directories that agree on which of the three candidate
    names they hold give the same result: the order in which the entries
    are stored, repeated entries and entries with other names do not
    matter. *)
Theorem resolve_same_names_same_result
        (fs1 fs2 : FileSystem) (entries1 entries2 : list FileInfo)
        (volumeID : string) :
  fs1 by_id_dir = DirEntries entries1 ->
  fs2 by_id_dir = DirEntries entries2 ->
  (forall name, In name (three_candidates volumeID) ->
                listed name entries1 <-> listed name entries2) ->
  getDevicePathBySerialID fs1 volumeID = getDevicePathBySerialID fs2 volumeID.
Proof.
  intros H1 H2 Hsame0.
  assert (Hsame : forall name,
             name = "virtio-" ++ substring 0 20 volumeID
             \/ name = "scsi-0QEMU_QEMU_HARDDISK_" ++ substring 0 20 volumeID
             \/ name = "wwn-0x" ++ remove_hyphens volumeID ->
             listed name entries1 <-> listed name entries2).
  { intros name Hn. apply Hsame0. unfold three_candidates. cbn.
    intuition. }
  destruct (Nat.lt_ge_cases (String.length volumeID) 20) as [Hlt|Hge].
  { now rewrite !(resolve_short _ _ Hlt). }
  destruct (resolve_effective_priority fs1 volumeID entries1 Hge H1)
    as [Hs1 [Hk1 Hw1]].
  destruct (resolve_effective_priority fs2 volumeID entries2 Hge H2)
    as [Hs2 [Hk2 Hw2]].
  cbv zeta in *.
  set (kvm := "virtio-" ++ substring 0 20 volumeID) in *.
  set (scsi := "scsi-0QEMU_QEMU_HARDDISK_" ++ substring 0 20 volumeID) in *.
  set (wwn := "wwn-0x" ++ remove_hyphens volumeID) in *.
  destruct (listedb scsi entries1) eqn:Es.
  { apply listedb_spec in Es. rewrite (Hs1 Es).
    symmetry. apply Hs2. apply Hsame; auto. }
  apply listedb_false in Es.
  assert (Es2 : ~ listed scsi entries2) by (rewrite <- Hsame; auto).
  destruct (listedb kvm entries1) eqn:Ek.
  { apply listedb_spec in Ek. rewrite (Hk1 Es Ek).
    symmetry. apply Hk2; [exact Es2|]. apply Hsame; auto. }
  apply listedb_false in Ek.
  assert (Ek2 : ~ listed kvm entries2) by (rewrite <- Hsame; auto).
  destruct (listedb wwn entries1) eqn:Ew.
  { apply listedb_spec in Ew. rewrite (Hw1 Es Ek Ew).
    symmetry. apply Hw2; [exact Es2|exact Ek2|]. apply Hsame; auto. }
  apply listedb_false in Ew.
  assert (Ew2 : ~ listed wwn entries2) by (rewrite <- Hsame; auto).
  rewrite (resolve_none_listed fs1 volumeID entries1 Hge H1),
          (resolve_none_listed fs2 volumeID entries2 Hge H2);
    [reflexivity| |];
    intros c [<-|[<-|[<-|[]]]]; assumption.
Qed.

Lemma same_names_fixture (name : string) :
  listed name [Fixture.wwn_entry; Fixture.virtio_entry; Fixture.other_entry;
               Fixture.scsi_entry]
  <-> listed name [Fixture.scsi_entry; Fixture.other_entry;
                   Fixture.wwn_entry; Fixture.virtio_entry;
                   Fixture.scsi_entry].
Proof.
  unfold listed. split; intros [f [Hf E]]; exists f; (split; [|exact E]);
    cbn in *; intuition.
Qed.

Lemma resolve_same_names_same_result_witness :
  getDevicePathBySerialID (Fixture.host_fs Fixture.all_listed) Fixture.vol =
  getDevicePathBySerialID (Fixture.host_fs Fixture.all_listed_again)
                          Fixture.vol.
Proof.
  exact (resolve_same_names_same_result
           (Fixture.host_fs Fixture.all_listed)
           (Fixture.host_fs Fixture.all_listed_again)
           _ _ Fixture.vol eq_refl eq_refl
           (fun name _ => same_names_fixture name)).
Defined.

(** X4: when every entry of the by-id directory has a proper file name (not
    empty, not "." or "..", no slash), a path that getDevicePathBySerialID
    returns without error is "/dev/disk/by-id/" followed by the name of an
    entry of the directory that equals one of the three candidates. *)
Theorem resolved_path_is_by_id_entry
        (fs : FileSystem) (volumeID : string) (entries : list FileInfo)
        (devicePath : string) :
  fs by_id_dir = DirEntries entries ->
  (forall f, In f entries -> entry_name_ok (Name f) = true) ->
  getDevicePathBySerialID fs volumeID = Done (devicePath, None) ->
  exists f,
    In f entries
    /\ In (Name f) (three_candidates volumeID)
    /\ devicePath = "/dev/disk/by-id/" ++ Name f.
Proof.
  intros Hdir Hok Hres.
  destruct (Nat.lt_ge_cases (String.length volumeID) 20) as [Hlt|Hge].
  { rewrite (resolve_short _ _ Hlt) in Hres. discriminate. }
  rewrite (getDevicePathBySerialID_long fs volumeID Hge) in Hres.
  unfold ioutil_ReadDir in Hres. rewrite Hdir in Hres. cbn [fst] in Hres.
  destruct (find _ _) as [f|] eqn:Hfind; [|discriminate].
  apply find_some in Hfind. destruct Hfind as [Hin Hcand].
  assert (Hf : In f entries)
    by (eapply Permutation_in; [symmetry; apply sort_by_name_perm|exact Hin]).
  exists f. split; [exact Hf|]. split; [now apply is_candidate_name|].
  injection Hres as <-. now apply path_Join_by_id, Hok.
Qed.

Lemma resolved_path_is_by_id_entry_witness :
  exists f,
    In f [Fixture.other_entry; Fixture.virtio_entry]
    /\ In (Name f) (three_candidates Fixture.vol)
    /\ "/dev/disk/by-id/virtio-6f2a9c1e-3b4d-4e5f-8" =
       "/dev/disk/by-id/" ++ Name f.
Proof.
  apply (resolved_path_is_by_id_entry
           (Fixture.host_fs Fixture.attached) Fixture.vol
           [Fixture.other_entry; Fixture.virtio_entry]).
  - reflexivity.
  - intros f [<-|[<-|[]]]; reflexivity.
  - vm_compute. reflexivity.
Defined.

(** X5: the candidate names built for a volume id are pairwise different,
    so a directory entry equals at most one of them. *)
Theorem candidates_pairwise_distinct (volumeID : string) (l : list string) :
  candidateDeviceNodes volumeID = Done l -> NoDup l.
Proof.
  intros H.
  destruct (Nat.lt_ge_cases (String.length volumeID) 20) as [Hlt|Hge].
  { rewrite (candidateDeviceNodes_short _ Hlt) in H. discriminate. }
  rewrite (candidateDeviceNodes_long _ Hge) in H. injection H as <-.
  unfold three_candidates.
  repeat constructor; cbn; intuition; discriminate.
Qed.

Lemma candidates_pairwise_distinct_witness :
  NoDup [ "virtio-6f2a9c1e-3b4d-4e5f-8";
          "scsi-0QEMU_QEMU_HARDDISK_6f2a9c1e-3b4d-4e5f-8";
          "wwn-0x6f2a9c1e3b4d4e5f8a7b0c1d2e3f4a5b" ].
Proof.
  apply (candidates_pairwise_distinct Fixture.vol). vm_compute. reflexivity.
Defined.

(** *** NodePublishVolume and NodeUnpublishVolume, step by step *)

(** What a recorded call in a finished run tells. *)
Ltac log_cases H :=
  cbn in H;
  repeat match goal with
         | H : _ \/ _ |- _ => destruct H
         | H : False |- _ => destruct H
         | H : @eq Call _ _ |- _ => inversion H; clear H; subst
         end;
  try discriminate.

Section HandlerSteps.

Context {World : Type}.
Variable filesystem : World -> FileSystem.
Variable GetMountProvider : World -> IMount World + error.
Variable ns : nodeServer World.

Local Abbreviation publish :=
  (NodePublishVolume filesystem GetMountProvider ns).
Local Abbreviation unpublish := (NodeUnpublishVolume GetMountProvider ns).
Local Abbreviation get_info := (NodeGetInfo GetMountProvider ns).

(** X6: the provider calls of a publish run are made in the order scan,
    mount-state check, format-and-mount, each at most once and on the
    resolved device: the check only after a scan without error, the mount
    only after a check that reported "not mounted" without error. *)
Theorem publish_call_protocol (req : NodePublishVolumeRequest) (w : World) :
  let tp := GetTargetPath req in
  let fsType := GetFsType (GetMount (GetVolumeCapability req)) in
  let log := calls (snd (run (publish req) w)) in
  log = []
  \/ exists d,
      getDevicePathBySerialID (filesystem w) (GetVolumeId req) =
        Done (d, None)
      /\ ((exists e, log = [CallScanForAttach d (Some e)])
          \/ (exists r,
                 log = [CallScanForAttach d None;
                        CallIsLikelyNotMountPointAttach tp r]
                 /\ r <> (true, None))
          \/ (exists o e,
                 log = [CallScanForAttach d None;
                        CallIsLikelyNotMountPointAttach tp (true, None);
                        CallFormatAndMount d tp fsType o e])).
Proof.
  cbv zeta. unfold NodePublishVolume.
  run_cases;
    first
      [ left; reflexivity
      | right; eexists; split; [reflexivity|];
        first
          [ left; eexists; reflexivity
          | right; left; eexists; split; [reflexivity|discriminate]
          | right; right; eexists; eexists; reflexivity ] ].
Qed.

(** X7: a publish run panics exactly when the volume id is shorter than 20
    bytes, and then before any provider call; otherwise it returns either
    the response or an error, never both and never neither. *)
Theorem publish_panics_or_answers
        (req : NodePublishVolumeRequest) (w : World) :
  (String.length (GetVolumeId req) < 20
   /\ run (publish req) w = (Panic, mkRun w []))
  \/ (20 <= String.length (GetVolumeId req)
      /\ (fst (run (publish req) w) =
            Done (Some mkNodePublishVolumeResponse, None)
          \/ exists e, fst (run (publish req) w) = Done (None, Some e))).
Proof.
  destruct (Nat.lt_ge_cases (String.length (GetVolumeId req)) 20)
    as [Hlt|Hge].
  - left. split; [exact Hlt|].
    unfold NodePublishVolume. run_unfold.
    now rewrite (resolve_short _ _ Hlt).
  - right. split; [exact Hge|].
    unfold NodePublishVolume. run_unfold.
    rewrite (getDevicePathBySerialID_long _ _ Hge).
    run_cases; try discriminate;
      first [ left; reflexivity | right; eexists; reflexivity ].
Qed.

(** X8: an error of the device lookup is returned as it is, with no
    response, before the mount provider is used. *)
Theorem publish_resolution_failure
        (req : NodePublishVolumeRequest) (w : World)
        (p : string) (e : error) :
  getDevicePathBySerialID (filesystem w) (GetVolumeId req) =
    Done (p, Some e) ->
  run (publish req) w = (Done (None, Some e), mkRun w []).
Proof.
  intros H. unfold NodePublishVolume. run_unfold. now rewrite H.
Qed.

(** X9: when the mount provider cannot be obtained, publish returns that
    error itself, not wrapped into a status, and makes no call. *)
Theorem publish_provider_failure
        (req : NodePublishVolumeRequest) (w : World)
        (d : string) (e : error) :
  getDevicePathBySerialID (filesystem w) (GetVolumeId req) =
    Done (d, None) ->
  GetMountProvider w = inr e ->
  run (publish req) w = (Done (None, Some e), mkRun w []).
Proof.
  intros Hd Hp. unfold NodePublishVolume. run_unfold.
  rewrite Hd. cbv beta iota. cbn [world calls]. now rewrite Hp.
Qed.

(** X10: when the scan of a publish run fails, the run returns the scan's
    error itself, not wrapped into a status, and makes no further call. *)
Theorem publish_scan_failure
        (req : NodePublishVolumeRequest) (w : World)
        (d : string) (e : error) :
  In (CallScanForAttach d (Some e)) (calls (snd (run (publish req) w))) ->
  fst (run (publish req) w) = Done (None, Some e)
  /\ calls (snd (run (publish req) w)) = [CallScanForAttach d (Some e)].
Proof.
  unfold NodePublishVolume. intros H.
  run_cases; log_cases H; split; reflexivity.
Qed.

(** X11: when the mount-state check of a publish run fails, whatever
    boolean comes with the error, the run returns a status error of code
    Internal carrying the text of the check's error, and does not mount. *)
Theorem publish_check_failure
        (req : NodePublishVolumeRequest) (w : World)
        (tp : string) (notMnt : bool) (e : error) :
  In (CallIsLikelyNotMountPointAttach tp (notMnt, Some e))
     (calls (snd (run (publish req) w))) ->
  fst (run (publish req) w) =
    Done (None, Some (StatusError Internal (Error e)))
  /\ filter is_FormatAndMount (calls (snd (run (publish req) w))) = [].
Proof.
  unfold NodePublishVolume. intros H.
  run_cases; log_cases H; split; reflexivity.
Qed.

(** X12: the result of a publish run that mounts is decided by the
    FormatAndMount call: the response when it returns no error, otherwise a
    status error of code Internal carrying the text of its error. *)
Theorem publish_mount_outcome
        (req : NodePublishVolumeRequest) (w : World)
        (d tp fstype : string) (options : list string) (r : option error) :
  In (CallFormatAndMount d tp fstype options r)
     (calls (snd (run (publish req) w))) ->
  fst (run (publish req) w) =
  Done match r with
       | None => (Some mkNodePublishVolumeResponse, None)
       | Some e => (None, Some (StatusError Internal (Error e)))
       end.
Proof.
  unfold NodePublishVolume. intros H.
  run_cases; log_cases H; reflexivity.
Qed.

(** X13: publish reports success only when the provider said that the
    target is already a mount point, or when it mounted the resolved device
    at the target without error. *)
Theorem publish_success_means_mounted
        (req : NodePublishVolumeRequest) (w : World) :
  fst (run (publish req) w) = Done (Some mkNodePublishVolumeResponse, None) ->
  let tp := GetTargetPath req in
  let fsType := GetFsType (GetMount (GetVolumeCapability req)) in
  let log := calls (snd (run (publish req) w)) in
  exists d,
    getDevicePathBySerialID (filesystem w) (GetVolumeId req) = Done (d, None)
    /\ (log = [CallScanForAttach d None;
               CallIsLikelyNotMountPointAttach tp (false, None)]
        \/ exists o,
            log = [CallScanForAttach d None;
                   CallIsLikelyNotMountPointAttach tp (true, None);
                   CallFormatAndMount d tp fsType o None]).
Proof.
  cbv zeta. unfold NodePublishVolume. intros H.
  run_cases; try discriminate;
    eexists; (split; [reflexivity|]);
    first [ left; reflexivity | right; eexists; reflexivity ].
Qed.

(** X14: when the mount-state check of an unpublish run reports the target
    as mounted, the run makes exactly one UnmountPath call, on the target
    path, and its result is decided by that call: the response when it
    returns no error, otherwise a status error of code Internal carrying the
    text of its error. *)
Theorem unpublish_mounted_target
        (req : NodeUnpublishVolumeRequest) (w : World) :
  let tp := GetUnpublishTargetPath req in
  In (CallIsLikelyNotMountPointDetach tp (false, None))
     (calls (snd (run (unpublish req) w))) ->
  exists r,
    calls (snd (run (unpublish req) w)) =
      [CallIsLikelyNotMountPointDetach tp (false, None);
       CallUnmountPath tp r]
    /\ fst (run (unpublish req) w) =
       Done match r with
            | None => (Some mkNodeUnpublishVolumeResponse, None)
            | Some e => (None, Some (StatusError Internal (Error e)))
            end.
Proof.
  cbv zeta. unfold NodeUnpublishVolume. intros H.
  run_cases; log_cases H; eexists; split; reflexivity.
Qed.

(** X15: when the mount-state check of an unpublish run fails, whatever
    boolean comes with the error, the run returns a status error of code
    Internal carrying the text of the check's error, and does not unmount. *)
Theorem unpublish_check_failure
        (req : NodeUnpublishVolumeRequest) (w : World)
        (tp : string) (notMnt : bool) (e : error) :
  In (CallIsLikelyNotMountPointDetach tp (notMnt, Some e))
     (calls (snd (run (unpublish req) w))) ->
  fst (run (unpublish req) w) =
    Done (None, Some (StatusError Internal (Error e)))
  /\ filter is_UnmountPath (calls (snd (run (unpublish req) w))) = [].
Proof.
  unfold NodeUnpublishVolume. intros H.
  run_cases; log_cases H; split; reflexivity.
Qed.

(** X16: when the mount provider cannot be obtained, unpublish returns that
    error itself, not wrapped into a status, and makes no call. *)
Theorem unpublish_provider_failure
        (req : NodeUnpublishVolumeRequest) (w : World) (e : error) :
  GetMountProvider w = inr e ->
  run (unpublish req) w = (Done (None, Some e), mkRun w []).
Proof.
  intros Hp. unfold NodeUnpublishVolume. run_unfold. now rewrite Hp.
Qed.

(** X17: an unpublish run never panics, whatever the volume id of the
    request: it returns the response, and then it has checked the target and
    unmounted it without error, or it returns an error and no response. *)
Theorem unpublish_answers
        (req : NodeUnpublishVolumeRequest) (w : World) :
  let tp := GetUnpublishTargetPath req in
  (fst (run (unpublish req) w) =
     Done (Some mkNodeUnpublishVolumeResponse, None)
   /\ calls (snd (run (unpublish req) w)) =
        [CallIsLikelyNotMountPointDetach tp (false, None);
         CallUnmountPath tp None])
  \/ exists e, fst (run (unpublish req) w) = Done (None, Some e).
Proof.
  cbv zeta. unfold NodeUnpublishVolume.
  run_cases;
    first [ left; split; reflexivity | right; eexists; reflexivity ].
Qed.

(** X18: the provider calls of an unpublish run are the mount-state check
    and then, only after a check that reported "mounted" without error, one
    unmount of the target path; nothing else is called. *)
Theorem unpublish_call_protocol
        (req : NodeUnpublishVolumeRequest) (w : World) :
  let tp := GetUnpublishTargetPath req in
  let log := calls (snd (run (unpublish req) w)) in
  (log = [] /\ exists e, GetMountProvider w = inr e)
  \/ (exists r,
         log = [CallIsLikelyNotMountPointDetach tp r] /\ r <> (false, None))
  \/ (exists e,
         log = [CallIsLikelyNotMountPointDetach tp (false, None);
                CallUnmountPath tp e]).
Proof.
  cbv zeta. unfold NodeUnpublishVolume.
  run_cases;
    first
      [ left; split; [reflexivity|eexists; reflexivity]
      | right; left; eexists; split; [reflexivity|discriminate]
      | right; right; eexists; reflexivity ].
Qed.

(** X19: NodeGetInfo answers with the provider's instance id, and nothing
    else set, when the lookup succeeds with a non-empty string, hands the
    call to the default responder when it succeeds with the empty string,
    and returns the error itself when the lookup or the provider
    acquisition fails. *)
Theorem NodeGetInfo_answers (req : NodeGetInfoRequest) (w : World) :
  (forall m id w',
      GetMountProvider w = inl m ->
      GetInstanceID m w = ((id, None), w') ->
      id <> "" ->
      fst (run (get_info req) w) =
        Done (Some {| InfoNodeId := id; MaxVolumesPerNode := 0 |}, None))
  /\ (forall m w',
         GetMountProvider w = inl m ->
         GetInstanceID m w = (("", None), w') ->
         run (get_info req) w =
         DefaultNodeGetInfo (Default ns) req
                            (mkRun w' [CallGetInstanceID ("", None)]))
  /\ (forall m id e w',
         GetMountProvider w = inl m ->
         GetInstanceID m w = ((id, Some e), w') ->
         fst (run (get_info req) w) = Done (None, Some e))
  /\ (forall e,
         GetMountProvider w = inr e ->
         fst (run (get_info req) w) = Done (None, Some e)).
Proof.
  unfold NodeGetInfo. repeat split.
  - intros m id w' Hprov Hid Hne.
    pose proof (getNodeID_run GetMountProvider w) as Hrun.
    rewrite Hprov, Hid in Hrun.
    unfold run, bind in *. rewrite Hrun. cbv beta iota.
    rewrite length_positive.
    destruct (String.eqb id "") eqn:E; [|reflexivity].
    apply String.eqb_eq in E. contradiction.
  - intros m w' Hprov Hid.
    pose proof (getNodeID_run GetMountProvider w) as Hrun.
    rewrite Hprov, Hid in Hrun.
    unfold run, bind in *. rewrite Hrun. reflexivity.
  - intros m id e w' Hprov Hid.
    pose proof (getNodeID_run GetMountProvider w) as Hrun.
    rewrite Hprov, Hid in Hrun.
    unfold run, bind in *. rewrite Hrun. reflexivity.
  - intros e Hprov.
    pose proof (getNodeID_run GetMountProvider w) as Hrun.
    rewrite Hprov in Hrun.
    unfold run, bind in *. rewrite Hrun. reflexivity.
Qed.

(** X20: getNodeID never panics and calls nothing but the instance-id
    lookup, at most once; when it returns an error the id it returns is
    empty, even if the provider handed an id along with its error. *)
Theorem getNodeID_outcome (w : World) :
  exists id err,
    fst (run (getNodeID GetMountProvider) w) = Done (id, err)
    /\ (err <> None -> id = "")
    /\ (calls (snd (run (getNodeID GetMountProvider) w)) = []
        \/ exists r,
            calls (snd (run (getNodeID GetMountProvider) w)) =
              [CallGetInstanceID r]).
Proof.
  rewrite (getNodeID_run GetMountProvider w).
  destruct (GetMountProvider w) as [m|e].
  - destruct (GetInstanceID m w) as [[id [e|]] w']; cbn.
    + exists "", (Some e). repeat split. right. eexists. reflexivity.
    + exists id, None. repeat split; [congruence|].
      right. eexists. reflexivity.
  - exists "", (Some e). cbn. repeat split. now left.
Qed.

End HandlerSteps.

(** *** The steps on the small host *)

Lemma publish_resolution_failure_witness :
  run (Fixture.publish (Fixture.publish_req false)) Fixture.detached =
  (Done (None, Some (StatusError Internal
                       "Failed to find device by volume ID")),
   mkRun Fixture.detached []).
Proof.
  apply (publish_resolution_failure
           Fixture.host_fs Fixture.host_provider Fixture.server
           (Fixture.publish_req false) Fixture.detached "").
  vm_compute. reflexivity.
Defined.

Lemma publish_provider_failure_witness :
  run (Fixture.publish (Fixture.publish_req false)) Fixture.no_provider =
  (Done (None, Some (PlainError "mount provider not initialised")),
   mkRun Fixture.no_provider []).
Proof.
  apply (publish_provider_failure
           Fixture.host_fs Fixture.host_provider Fixture.server
           (Fixture.publish_req false) Fixture.no_provider
           "/dev/disk/by-id/virtio-6f2a9c1e-3b4d-4e5f-8").
  - vm_compute. reflexivity.
  - reflexivity.
Defined.

Lemma publish_scan_failure_witness :
  fst (run (NodePublishVolume Fixture.host_fs
              (Fixture.faulty Fixture.scan_fails) Fixture.server
              (Fixture.publish_req false)) Fixture.attached)
  = Done (None, Some Fixture.io_error)
  /\ calls (snd (run (NodePublishVolume Fixture.host_fs
                        (Fixture.faulty Fixture.scan_fails) Fixture.server
                        (Fixture.publish_req false)) Fixture.attached))
     = [CallScanForAttach "/dev/disk/by-id/virtio-6f2a9c1e-3b4d-4e5f-8"
                          (Some Fixture.io_error)].
Proof.
  apply (publish_scan_failure
           Fixture.host_fs (Fixture.faulty Fixture.scan_fails) Fixture.server
           (Fixture.publish_req false) Fixture.attached).
  vm_compute. left. reflexivity.
Defined.

Lemma publish_check_failure_witness :
  fst (run (NodePublishVolume Fixture.host_fs
              (Fixture.faulty Fixture.attach_check_fails) Fixture.server
              (Fixture.publish_req false)) Fixture.attached)
  = Done (None, Some (StatusError Internal "input/output error"))
  /\ filter is_FormatAndMount
            (calls (snd (run (NodePublishVolume Fixture.host_fs
                                (Fixture.faulty Fixture.attach_check_fails)
                                Fixture.server (Fixture.publish_req false))
                             Fixture.attached)))
     = [].
Proof.
  apply (publish_check_failure
           Fixture.host_fs (Fixture.faulty Fixture.attach_check_fails)
           Fixture.server (Fixture.publish_req false) Fixture.attached
           "/mnt/data" true Fixture.io_error).
  vm_compute. right. left. reflexivity.
Defined.

Lemma publish_mount_outcome_witness :
  fst (run (NodePublishVolume Fixture.host_fs
              (Fixture.faulty Fixture.mount_fails) Fixture.server
              (Fixture.publish_req true)) Fixture.attached)
  = Done (None, Some (StatusError Internal "input/output error"))
  /\ fst (run (Fixture.publish (Fixture.publish_req true)) Fixture.attached)
     = Done (Some mkNodePublishVolumeResponse, None).
Proof.
  split.
  - apply (publish_mount_outcome
             Fixture.host_fs (Fixture.faulty Fixture.mount_fails)
             Fixture.server (Fixture.publish_req true) Fixture.attached
             "/dev/disk/by-id/virtio-6f2a9c1e-3b4d-4e5f-8" "/mnt/data" "ext4"
             ["ro"; "noatime"; "discard"] (Some Fixture.io_error)).
    vm_compute. right. right. left. reflexivity.
  - apply (publish_mount_outcome
             Fixture.host_fs Fixture.host_provider
             Fixture.server (Fixture.publish_req true) Fixture.attached
             "/dev/disk/by-id/virtio-6f2a9c1e-3b4d-4e5f-8" "/mnt/data" "ext4"
             ["ro"; "noatime"; "discard"] None).
    vm_compute. right. right. left. reflexivity.
Defined.

Lemma publish_success_means_mounted_witness :
  exists d,
    getDevicePathBySerialID (Fixture.host_fs Fixture.attached) Fixture.vol =
      Done (d, None)
    /\ (calls (snd (run (Fixture.publish (Fixture.publish_req false))
                        Fixture.attached))
        = [CallScanForAttach d None;
           CallIsLikelyNotMountPointAttach "/mnt/data" (false, None)]
        \/ exists o,
            calls (snd (run (Fixture.publish (Fixture.publish_req false))
                            Fixture.attached))
            = [CallScanForAttach d None;
               CallIsLikelyNotMountPointAttach "/mnt/data" (true, None);
               CallFormatAndMount d "/mnt/data" "ext4" o None]).
Proof.
  apply (publish_success_means_mounted
           Fixture.host_fs Fixture.host_provider Fixture.server
           (Fixture.publish_req false) Fixture.attached).
  vm_compute. reflexivity.
Defined.

Lemma unpublish_mounted_target_witness :
  exists r,
    calls (snd (run (Fixture.unpublish Fixture.unpublish_req)
                    Fixture.published))
    = [CallIsLikelyNotMountPointDetach "/mnt/data" (false, None);
       CallUnmountPath "/mnt/data" r]
    /\ fst (run (Fixture.unpublish Fixture.unpublish_req) Fixture.published)
       = Done match r with
              | None => (Some mkNodeUnpublishVolumeResponse, None)
              | Some e => (None, Some (StatusError Internal (Error e)))
              end.
Proof.
  apply (unpublish_mounted_target
           Fixture.host_provider Fixture.server
           Fixture.unpublish_req Fixture.published).
  vm_compute. left. reflexivity.
Defined.

Lemma unpublish_check_failure_witness :
  fst (run (NodeUnpublishVolume (Fixture.faulty Fixture.detach_check_fails)
              Fixture.server Fixture.unpublish_req) Fixture.published)
  = Done (None, Some (StatusError Internal "input/output error"))
  /\ filter is_UnmountPath
            (calls (snd (run (NodeUnpublishVolume
                                (Fixture.faulty Fixture.detach_check_fails)
                                Fixture.server Fixture.unpublish_req)
                             Fixture.published)))
     = [].
Proof.
  apply (unpublish_check_failure
           (Fixture.faulty Fixture.detach_check_fails) Fixture.server
           Fixture.unpublish_req Fixture.published
           "/mnt/data" false Fixture.io_error).
  vm_compute. left. reflexivity.
Defined.

Lemma unpublish_provider_failure_witness :
  run (Fixture.unpublish Fixture.unpublish_req) Fixture.no_provider =
  (Done (None, Some (PlainError "mount provider not initialised")),
   mkRun Fixture.no_provider []).
Proof.
  apply (unpublish_provider_failure
           Fixture.host_provider Fixture.server
           Fixture.unpublish_req Fixture.no_provider).
  reflexivity.
Defined.

Lemma NodeGetInfo_answers_witness :
  fst (run (Fixture.get_info mkNodeGetInfoRequest) Fixture.attached)
  = Done (Some {| InfoNodeId := "i-0042"; MaxVolumesPerNode := 0 |}, None)
  /\ fst (run (Fixture.get_info mkNodeGetInfoRequest) Fixture.detached)
     = Done (Some {| InfoNodeId := "default-node"; MaxVolumesPerNode := 0 |},
             None)
  /\ fst (run (Fixture.get_info mkNodeGetInfoRequest) Fixture.unreadable)
     = Done (None, Some (PlainError "metadata service unreachable"))
  /\ fst (run (Fixture.get_info mkNodeGetInfoRequest) Fixture.no_provider)
     = Done (None, Some (PlainError "mount provider not initialised")).
Proof.
  pose proof (fun w => NodeGetInfo_answers Fixture.host_provider
                         Fixture.server mkNodeGetInfoRequest w) as T.
  split; [|split; [|split]].
  - apply (proj1 (T Fixture.attached) Fixture.provider "i-0042"
                 Fixture.attached eq_refl eq_refl).
    discriminate.
  - unfold Fixture.get_info.
    rewrite (proj1 (proj2 (T Fixture.detached)) Fixture.provider
                   Fixture.detached eq_refl eq_refl).
    reflexivity.
  - exact (proj1 (proj2 (proj2 (T Fixture.unreadable))) Fixture.provider ""
                 (PlainError "metadata service unreachable")
                 Fixture.unreadable eq_refl eq_refl).
  - exact (proj2 (proj2 (proj2 (T Fixture.no_provider)))
                 (PlainError "mount provider not initialised") eq_refl).
Defined.

(** *** Requests without a mount capability *)

(** X21: a publish request with no volume capability, with a block-access
    capability or with a mount capability that carries no mount volume is
    not refused: if the run mounts, it does so with the empty file system
    type and the single option "ro" or "rw". *)
Theorem publish_without_mount_capability
        {World : Type} (filesystem : World -> FileSystem)
        (GetMountProvider : World -> IMount World + error)
        (ns : nodeServer World)
        (req : NodePublishVolumeRequest) (w : World)
        (d tp fstype : string) (options : list string) (r : option error) :
  GetMount (GetVolumeCapability req) = None ->
  In (CallFormatAndMount d tp fstype options r)
     (calls (snd (run (NodePublishVolume filesystem GetMountProvider ns req)
                      w))) ->
  fstype = ""
  /\ options = [if GetReadonly req then "ro" else "rw"].
Proof.
  unfold NodePublishVolume. intros Hcap H. rewrite Hcap in H.
  cbn [GetFsType GetMountFlags] in H. unfold append_strings in H.
  run_cases; log_cases H; split; reflexivity.
Qed.

Lemma publish_without_mount_capability_witness :
  calls (snd (run (Fixture.publish Fixture.block_req) Fixture.attached))
  = [CallScanForAttach "/dev/disk/by-id/virtio-6f2a9c1e-3b4d-4e5f-8" None;
     CallIsLikelyNotMountPointAttach "/mnt/data" (true, None);
     CallFormatAndMount "/dev/disk/by-id/virtio-6f2a9c1e-3b4d-4e5f-8"
                        "/mnt/data" "" ["rw"] None]
  /\ "" = "" /\ ["rw"] = [if GetReadonly Fixture.block_req
                          then "ro" else "rw"].
Proof.
  split; [vm_compute; reflexivity|].
  apply (publish_without_mount_capability
           Fixture.host_fs Fixture.host_provider Fixture.server
           Fixture.block_req Fixture.attached
           "/dev/disk/by-id/virtio-6f2a9c1e-3b4d-4e5f-8" "/mnt/data" ""
           ["rw"] None).
  - reflexivity.
  - vm_compute. right. right. left. reflexivity.
Defined.
